(** * Contrast Grid Editor: entry parsing, grid state and contrast engine

    A shallow embedding of the pure logic of the React component
    (src/src/App.tsx and the sibling revision src/unnamed/part_001) together
    with the properties stated about it.

    JavaScript strings are modelled by [string]; the operations used by the
    code ([indexOf] of a one-character pattern, [substring], concatenation, a
    character-class regular expression) act on code units one by one, so a
    character of [string] stands for one code unit. *)

From Stdlib Require Import ZArith QArith Qround List String Ascii Bool Lia
  Permutation.
From Stdlib Require Import Lqa DecimalString.
Import ListNotations.

Local Open Scope string_scope.
Local Open Scope Z_scope.

(** ** JavaScript string primitives used by the parser *)

Module JS.

(** [s.indexOf(c)] for a one-character pattern, scanning from position [i];
    [-1] when the character does not occur. *)
Fixpoint indexOfFrom (c : ascii) (s : string) (i : Z) : Z :=
  match s with
  | EmptyString => -1
  | String a t => if Ascii.eqb a c then i else indexOfFrom c t (i + 1)
  end.

Definition indexOf (c : ascii) (s : string) : Z := indexOfFrom c s 0.

(** Index arguments of [substring] are clamped into [0, length]. *)
Definition clamp (len i : Z) : Z := Z.max 0 (Z.min i len).

(** [s.substring(a, b)]: both bounds clamped, swapped when [a > b]. *)
Definition substring (s : string) (a b : Z) : string :=
  let len := Z.of_nat (String.length s) in
  let a' := clamp len a in
  let b' := clamp len b in
  let lo := Z.min a' b' in
  let hi := Z.max a' b' in
  String.substring (Z.to_nat lo) (Z.to_nat (hi - lo)) s.

(** [s.substring(a)]: the end defaults to the length of the string. *)
Definition substringFrom (s : string) (a : Z) : string :=
  substring s a (Z.of_nat (String.length s)).

(** The character class [[0-9A-Fa-f]]. *)
Definition isHexDigit (c : ascii) : bool :=
  let n := N_of_ascii c in
  ((48 <=? n) && (n <=? 57) || (65 <=? n) && (n <=? 70)
   || (97 <=? n) && (n <=? 102))%N.

Fixpoint allHex (s : string) : bool :=
  match s with
  | EmptyString => true
  | String a t => isHexDigit a && allHex t
  end.

(** [/^[0-9A-Fa-f]{6}$/.test(s)] *)
Definition testBareHex6 (s : string) : bool :=
  Nat.eqb (String.length s) 6 && allHex s.

(** Truthiness of a string value: only the empty string is falsy. *)
Definition truthy (s : string) : bool :=
  match s with EmptyString => false | String _ _ => true end.

(** The line separator of the text areas. *)
Definition newline : ascii := "010"%char.

(** [s.split(c)] for a one-character separator: the pieces between the
    separators, one more than there are separators. *)
Fixpoint split (c : ascii) (s : string) : list string :=
  match s with
  | EmptyString => [EmptyString]
  | String a t =>
      if Ascii.eqb a c then EmptyString :: split c t
      else match split c t with
           | piece :: rest => String a piece :: rest
           | [] => [String a EmptyString]
           end
  end.

(** [pieces.join(sep)] *)
Fixpoint join (sep : string) (pieces : list string) : string :=
  match pieces with
  | [] => EmptyString
  | piece :: rest =>
      match rest with
      | [] => piece
      | _ :: _ => piece ++ sep ++ join sep rest
      end
  end.

End JS.

(** ** Colour entries *)

(** [interface ColorEntry { color: string; label?: string }] *)
Record ColorEntry : Type := mkEntry {
  color : string;
  label : option string
}.

(** ** Entry parser, exact-preservation revision (src/unnamed/part_001) *)

Module ExactMode.

(** The index at which the colour part ends, [-1] when the line has neither a
    comma nor a space. *)
Definition colorEndIndex (input : string) : Z :=
  let firstCommaIndex := JS.indexOf "," input in
  let firstSpaceIndex := JS.indexOf " " input in
  if negb (firstCommaIndex =? -1) && negb (firstSpaceIndex =? -1) then
    Z.min firstCommaIndex firstSpaceIndex
  else if negb (firstCommaIndex =? -1) then firstCommaIndex
  else if negb (firstSpaceIndex =? -1) then firstSpaceIndex
  else -1.

(** The bare-hex rule: a token of exactly six hex digits gets a leading [#]. *)
Definition autoPrefix (colorPart : string) : string :=
  if JS.testBareHex6 colorPart then "#" ++ colorPart else colorPart.

Definition parseColorInput (input : string) : ColorEntry :=
  let colorEndIndex := colorEndIndex input in
  if colorEndIndex =? -1 then {| color := input; label := None |}
  else
    let colorPart := JS.substring input 0 colorEndIndex in
    let labelPart := JS.substringFrom input colorEndIndex in
    let color := autoPrefix colorPart in
    {| color := color;
       label := if JS.truthy labelPart then Some labelPart else None |}.

(** [if (!entry.label) return entry.color; return `${entry.color}${entry.label}`] *)
Definition formatColorValue (entry : ColorEntry) : string :=
  match label entry with
  | None => color entry
  | Some l => if JS.truthy l then color entry ++ l else color entry
  end.

End ExactMode.

(** ** Vocabulary of the parsing claims *)

(** The two delimiters. *)
Definition isDelim (c : ascii) : bool :=
  Ascii.eqb c "," || Ascii.eqb c " ".

(** No comma and no space anywhere in the string. *)
Fixpoint noDelim (s : string) : bool :=
  match s with
  | EmptyString => true
  | String a t => negb (isDelim a) && noDelim t
  end.

(** The text before the first delimiter (the whole line when there is none). *)
Fixpoint colorToken (s : string) : string :=
  match s with
  | EmptyString => EmptyString
  | String a t => if isDelim a then EmptyString else String a (colorToken t)
  end.

(** A line triggers the bare-hex normalisation when it has a delimiter and
    the token before it consists of exactly six hex digits. *)
Definition triggersAutoPrefix (line : string) : bool :=
  negb (noDelim line) && JS.testBareHex6 (colorToken line).

(** ** JavaScript arrays of entries *)

Module JSArray.

(** A cell of an array of entries; [None] is a hole or [undefined]. *)
Definition slot : Type := option ColorEntry.
Definition array : Type := list slot.

(** [a[i]]: [undefined] past the end. *)
Definition get (a : array) (i : nat) : slot :=
  match nth_error a i with
  | Some s => s
  | None => None
  end.

(** [a[i] = v]: within the array the cell is replaced; at or past the end
    the array grows to length [i + 1], with holes below [i]. *)
Definition set (a : array) (i : nat) (v : ColorEntry) : array :=
  if (i <? List.length a)%nat then (firstn i a ++ Some v :: skipn (S i) a)%list
  else (a ++ repeat None (i - List.length a) ++ [Some v])%list.

(** [a.splice(i, 1)]; a start past the end is clamped and removes nothing. *)
Definition spliceRemove (a : array) (i : nat) : array :=
  (firstn i a ++ skipn (S i) a)%list.

(** [a.splice(i, 0, x)]; a start past the end is clamped to the length. *)
Definition spliceInsert (a : array) (i : nat) (x : slot) : array :=
  (firstn i a ++ x :: skipn i a)%list.

End JSArray.

(** ** Grid state (src/src/App.tsx, component [App]) *)

Inductive AxisType : Type := foreground | background.
Inductive DragType : Type := column | row.

(** The object serialised under [STORAGE_KEY]. *)
Record PersistedState : Type := mkPersisted {
  fg : JSArray.array;
  bg : JSArray.array
}.

(** The pieces of component state the handlers read and write; [saved] is
    the object a handler last passed to [localStorage.setItem].  The effect
    that saves again after a render runs outside the handlers and is not
    part of them. *)
Record AppState : Type := mkState {
  foregroundColors : JSArray.array;
  backgroundColors : JSArray.array;
  activeColorPicker : option (AxisType * nat);
  draggedIndex : option nat;
  draggedRowIndex : option nat;
  saved : option PersistedState
}.

(** [{ ...old, color: newColor }]; spreading [undefined] adds no field. *)
Definition withColor (old : JSArray.slot) (newColor : string) : ColorEntry :=
  match old with
  | Some e => {| color := newColor; label := label e |}
  | None => {| color := newColor; label := None |}
  end.

Definition handleColorChange (newColor : string) (st : AppState) : AppState :=
  match activeColorPicker st with
  | None => st
  | Some (foreground, index) =>
      let newColors :=
        JSArray.set (foregroundColors st) index
          (withColor (JSArray.get (foregroundColors st) index) newColor) in
      {| foregroundColors := newColors;
         backgroundColors := backgroundColors st;
         activeColorPicker := activeColorPicker st;
         draggedIndex := draggedIndex st;
         draggedRowIndex := draggedRowIndex st;
         saved := Some {| fg := newColors; bg := backgroundColors st |} |}
  | Some (background, index) =>
      let newColors :=
        JSArray.set (backgroundColors st) index
          (withColor (JSArray.get (backgroundColors st) index) newColor) in
      {| foregroundColors := foregroundColors st;
         backgroundColors := newColors;
         activeColorPicker := activeColorPicker st;
         draggedIndex := draggedIndex st;
         draggedRowIndex := draggedRowIndex st;
         saved := Some {| fg := foregroundColors st; bg := newColors |} |}
  end.

Definition handleDragStart (index : nat) (type : DragType) (st : AppState)
  : AppState :=
  match type with
  | column =>
      {| foregroundColors := foregroundColors st;
         backgroundColors := backgroundColors st;
         activeColorPicker := activeColorPicker st;
         draggedIndex := Some index;
         draggedRowIndex := draggedRowIndex st;
         saved := saved st |}
  | row =>
      {| foregroundColors := foregroundColors st;
         backgroundColors := backgroundColors st;
         activeColorPicker := activeColorPicker st;
         draggedIndex := draggedIndex st;
         draggedRowIndex := Some index;
         saved := saved st |}
  end.

Definition handleDragOver (index : nat) (type : DragType) (st : AppState)
  : AppState :=
  match type with
  | column =>
      match draggedIndex st with
      | None => st
      | Some dragged =>
          if Nat.eqb dragged index then st
          else
            let newColors := foregroundColors st in
            let draggedColor := JSArray.get newColors dragged in
            let newColors := JSArray.spliceRemove newColors dragged in
            let newColors := JSArray.spliceInsert newColors index draggedColor in
            {| foregroundColors := newColors;
               backgroundColors := backgroundColors st;
               activeColorPicker := activeColorPicker st;
               draggedIndex := Some index;
               draggedRowIndex := draggedRowIndex st;
               saved := saved st |}
      end
  | row =>
      match draggedRowIndex st with
      | None => st
      | Some dragged =>
          if Nat.eqb dragged index then st
          else
            let newColors := backgroundColors st in
            let draggedColor := JSArray.get newColors dragged in
            let newColors := JSArray.spliceRemove newColors dragged in
            let newColors := JSArray.spliceInsert newColors index draggedColor in
            {| foregroundColors := foregroundColors st;
               backgroundColors := newColors;
               activeColorPicker := activeColorPicker st;
               draggedIndex := draggedIndex st;
               draggedRowIndex := Some index;
               saved := saved st |}
      end
  end.

Definition handleDragEnd (type : DragType) (st : AppState) : AppState :=
  match type with
  | column =>
      {| foregroundColors := foregroundColors st;
         backgroundColors := backgroundColors st;
         activeColorPicker := activeColorPicker st;
         draggedIndex := None;
         draggedRowIndex := draggedRowIndex st;
         saved := saved st |}
  | row =>
      {| foregroundColors := foregroundColors st;
         backgroundColors := backgroundColors st;
         activeColorPicker := activeColorPicker st;
         draggedIndex := draggedIndex st;
         draggedRowIndex := None;
         saved := saved st |}
  end.

(** ** Vocabulary of the grid claims *)

(** The list an axis name refers to, and the other one. *)
Definition axisOf (which : AxisType) (st : AppState) : JSArray.array :=
  match which with
  | foreground => foregroundColors st
  | background => backgroundColors st
  end.

Definition otherAxis (which : AxisType) : AxisType :=
  match which with
  | foreground => background
  | background => foreground
  end.

(** Columns are the foreground colours, rows the background colours. *)
Definition axisOfDrag (type : DragType) : AxisType :=
  match type with
  | column => foreground
  | row => background
  end.

(** The index the component holds for the entry being dragged. *)
Definition draggedOf (type : DragType) (st : AppState) : option nat :=
  match type with
  | column => draggedIndex st
  | row => draggedRowIndex st
  end.

(** ** JavaScript numbers

    A finite number is represented by the rational it denotes; [NaN] is kept
    because the code tests for it ([h || 0]) and compares against it. *)

Inductive number : Type :=
  | NaN
  | Num (q : Q).

Module Number.

(** [x >= y]; any comparison with [NaN] is false. *)
Definition geb (x y : number) : bool :=
  match x, y with
  | Num a, Num b => Qle_bool b a
  | _, _ => false
  end.

(** [x || d] for a numeric default [d]: [NaN] and zero are falsy. *)
Definition orElse (x : number) (d : Q) : Q :=
  match x with
  | NaN => d
  | Num q => if Qeq_bool q 0 then d else q
  end.

(** [Math.round] on a finite number: nearest integer, ties upwards. *)
Definition round (q : Q) : Z := Qfloor (q + (1 # 2)).

End Number.

(** ** Contrast classification *)

(** The cell caption: ['AAA'], ['AA'], or the red cross of a failing cell. *)
Inductive ContrastLabel : Type := AAA | AA | FAIL.

Definition getContrastLabel (ratio : number) : ContrastLabel :=
  if Number.geb ratio (Num 7) then AAA
  else if Number.geb ratio (Num 4.5) then AA
  else FAIL.

(** ** Contrast of a grid cell

    The colour library is a parameter: [chroma] is its constructor, which
    throws ([None]) on text it cannot read, and [contrast] the ratio it
    computes for two colours it has read. *)

Section ContrastEngine.

Variable Color : Type.
Variable chroma : string -> option Color.
Variable contrast : Color -> Color -> number.

(** [chroma.contrast(a, b)] builds both colours first and so throws when
    either text is not a colour. *)
Definition chroma_contrast (a b : string) : option number :=
  match chroma a, chroma b with
  | Some ca, Some cb => Some (contrast ca cb)
  | _, _ => None
  end.

(** [try { chroma(color); return true } catch { return false }] *)
Definition isValidColor (color : string) : bool :=
  match chroma color with
  | Some _ => true
  | None => false
  end.

(** [try { return chroma.contrast(color1, color2) } catch { return 0 }] *)
Definition getRatio (color1 color2 : string) : number :=
  match chroma_contrast color1 color2 with
  | Some ratio => ratio
  | None => Num 0
  end.

(** The ratio shown in the cell of one foreground and one background colour
    (the body of the inner [map] of the table). *)
Definition cellRatio (fgColor bgColor : string) : number :=
  if isValidColor fgColor && isValidColor bgColor
  then getRatio fgColor bgColor
  else Num 0.

End ContrastEngine.

Arguments chroma_contrast {Color}.
Arguments isValidColor {Color}.
Arguments getRatio {Color}.
Arguments cellRatio {Color}.

(** ** Persisted state at start-up *)

(** Values produced by [JSON.parse]. *)
#[warnings="-register-all"]
Inductive json : Type :=
  | JNull
  | JBool (b : bool)
  | JNumber (n : Q)
  | JString (s : string)
  | JArray (items : list json)
  | JObject (fields : list (string * json)).

Definition jsonOfEntry (e : ColorEntry) : json :=
  JObject (("color", JString (color e)) ::
           match label e with
           | Some l => [("label", JString l)]
           | None => []
           end).

Definition jsonOfEntries (l : list ColorEntry) : json :=
  JArray (map jsonOfEntry l).

Definition defaultForeground : list ColorEntry :=
  [ {| color := "#FFFFFF"; label := Some "White" |};
    {| color := "#000000"; label := Some "Black" |};
    {| color := "#FF0000"; label := Some "Red" |} ].

Definition defaultBackground : list ColorEntry :=
  [ {| color := "#000000"; label := Some "Black" |};
    {| color := "#FFFFFF"; label := Some "White" |};
    {| color := "#0000FF"; label := Some "Blue" |} ].

Fixpoint property (key : string) (fields : list (string * json))
  : option json :=
  match fields with
  | [] => None
  | (k, v) :: rest => if String.eqb k key then Some v else property key rest
  end.

(** [const { key } = value]: throws ([None]) on [null]; an object gives its
    property, [undefined] ([Some None]) when it has none; other values have
    no such property. *)
Definition destructure (key : string) (value : json)
  : option (option json) :=
  match value with
  | JNull => None
  | JObject fields => Some (property key fields)
  | _ => Some None
  end.

Section Startup.

(** [JSON.parse]; [None] when it throws. *)
Variable JSON_parse : string -> option json.

(** The initialiser of one list: [savedColors] is what
    [localStorage.getItem(STORAGE_KEY)] returned, [None] for [null].  The
    result is the initial value of the state variable, [None] for
    [undefined]. *)
Definition loadAxis (key : string) (defaults : list ColorEntry)
  (savedColors : option string) : option json :=
  match savedColors with
  | Some text =>
      if JS.truthy text then
        match JSON_parse text with
        | Some value =>
            match destructure key value with
            | Some field => field
            | None => Some (jsonOfEntries defaults)
            end
        | None => Some (jsonOfEntries defaults)
        end
      else Some (jsonOfEntries defaults)
  | None => Some (jsonOfEntries defaults)
  end.

Definition initForegroundColors : option string -> option json :=
  loadAxis "fg" defaultForeground.

Definition initBackgroundColors : option string -> option json :=
  loadAxis "bg" defaultBackground.

End Startup.

(** ** The colour library, hex and HSL views

    chroma-js is a dependency of the component and not under src/.  The
    specification fixes the views (RGB channels 0 to 255, hue in degrees 0 to
    360, saturation and lightness in percent, a six-digit hex text) and not
    the formulas between them; those are the usual HSL/sRGB ones, which the
    library implements, written out over exact rationals. *)

Module Chroma.

Record RGB : Type := mkRGB { r : Z; g : Z; b : Z }.

(** Value of one hex digit. *)
Definition hexValue (c : ascii) : option Z :=
  let n := Z.of_N (N_of_ascii c) in
  if (48 <=? n) && (n <=? 57) then Some (n - 48)
  else if (65 <=? n) && (n <=? 70) then Some (n - 55)
  else if (97 <=? n) && (n <=? 102) then Some (n - 87)
  else None.

Fixpoint hexValues (s : string) : option (list Z) :=
  match s with
  | EmptyString => Some []
  | String c t =>
      match hexValue c, hexValues t with
      | Some v, Some vs => Some (v :: vs)
      | _, _ => None
      end
  end.

(** Modelled from the spec: the hex reader of chroma-js (not under src/).
    Hex text to channels: an optional [#], then six digits, or three digits
    each standing for a doubled one.  Only hex notation without alpha is
    read; [None] stands for the exception the constructor throws. *)
Definition hex2rgb (hex : string) : option RGB :=
  let digits :=
    match hex with
    | String "#" t => t
    | _ => hex
    end in
  match hexValues digits with
  | Some [r1; r0; g1; g0; b1; b0] =>
      Some {| r := 16 * r1 + r0; g := 16 * g1 + g0; b := 16 * b1 + b0 |}
  | Some [r1; g1; b1] =>
      Some {| r := 17 * r1; g := 17 * g1; b := 17 * b1 |}
  | _ => None
  end.

(** Lower-case hex digit of a value below 16. *)
Definition hexDigit (n : Z) : ascii :=
  if n <? 10 then ascii_of_N (Z.to_N (48 + n))
  else ascii_of_N (Z.to_N (87 + n)).

Definition hexByte (n : Z) : string :=
  String (hexDigit (n / 16)) (String (hexDigit (n mod 16)) EmptyString).

Local Open Scope Q_scope.

Definition Qltb (x y : Q) : bool := negb (Qle_bool y x).
Definition Qmin (x y : Q) : Q := if Qle_bool x y then x else y.
Definition Qmax (x y : Q) : Q := if Qle_bool x y then y else x.

(** Channels are clipped to 0..255 when a colour is built. *)
Definition clip (x : Q) : Q := Qmin (Qmax 0 x) 255.

(** Modelled from the spec: the hex writer of chroma-js (not under src/).
    Channels to hex text: each channel rounded, two lower-case digits
    each. *)
Definition rgb2hex (c : Q * Q * Q) : string :=
  let '(cr, cg, cb) := c in
  "#" ++ hexByte (Number.round (clip cr))
      ++ hexByte (Number.round (clip cg))
      ++ hexByte (Number.round (clip cb)).

(** One channel of the chromatic case, from the two lightness bounds and
    the shifted hue. *)
Definition hslChannel (t1 t2 t3 : Q) : Q :=
  let t3 := if Qltb t3 0 then t3 + 1 else t3 in
  let t3 := if Qltb 1 t3 then t3 - 1 else t3 in
  if Qltb (6 * t3) 1 then t1 + (t2 - t1) * 6 * t3
  else if Qltb (2 * t3) 1 then t2
  else if Qltb (3 * t3) 2 then t1 + (t2 - t1) * ((2 # 3) - t3) * 6
  else t1.

(** Modelled from the spec: [chroma.hsl] of chroma-js (not under src/).
    HSL (hue in degrees, [s] and [l] in 0..1) to channels. *)
Definition hsl2rgb (h s l : Q) : Q * Q * Q :=
  if Qeq_bool s 0 then (l * 255, l * 255, l * 255)
  else
    let t2 := if Qltb l (1 # 2) then l * (1 + s) else l + s - l * s in
    let t1 := 2 * l - t2 in
    let h_ := h / 360 in
    (inject_Z (Number.round (hslChannel t1 t2 (h_ + (1 # 3)) * 255)),
     inject_Z (Number.round (hslChannel t1 t2 h_ * 255)),
     inject_Z (Number.round (hslChannel t1 t2 (h_ - (1 # 3)) * 255))).

(** Modelled from the spec: the [hsl()] view of chroma-js (not under src/).
    Channels to HSL; the hue of a grey is undefined and comes out [NaN]. *)
Definition rgb2hsl (c : RGB) : number * number * number :=
  let cr := inject_Z (r c) / 255 in
  let cg := inject_Z (g c) / 255 in
  let cb := inject_Z (b c) / 255 in
  let minRgb := Qmin (Qmin cr cg) cb in
  let maxRgb := Qmax (Qmax cr cg) cb in
  let l := (maxRgb + minRgb) / 2 in
  if Qeq_bool maxRgb minRgb then (NaN, Num 0, Num l)
  else
    let s :=
      if Qltb l (1 # 2) then (maxRgb - minRgb) / (maxRgb + minRgb)
      else (maxRgb - minRgb) / (2 - maxRgb - minRgb) in
    let h :=
      if Qeq_bool cr maxRgb then (cg - cb) / (maxRgb - minRgb)
      else if Qeq_bool cg maxRgb then 2 + (cb - cr) / (maxRgb - minRgb)
      else 4 + (cr - cg) / (maxRgb - minRgb) in
    let h := h * 60 in
    let h := if Qltb h 0 then h + 360 else h in
    (Num h, Num s, Num l).

End Chroma.

(** ** HSL view of the colour picker (src/src/App.tsx) *)

Module Hsl.

(** [interface HSL { h: number; s: number; l: number }]; the fields hold
    integers, slider positions or results of [Math.round]. *)
Record HSL : Type := mkHSL { h : Z; s : Z; l : Z }.

(** The range of the sliders. *)
Definition inRange (hsl : HSL) : bool :=
  (0 <=? h hsl) && (h hsl <=? 360) && (0 <=? s hsl) && (s hsl <=? 100)
  && (0 <=? l hsl) && (l hsl <=? 100).

Local Open Scope Q_scope.

(** [hexToHsl]; [None] when [chroma(hex)] throws. *)
Definition hexToHsl (hex : string) : option HSL :=
  match Chroma.hex2rgb hex with
  | None => None
  | Some c =>
      let '(ch, cs, cl) := Chroma.rgb2hsl c in
      Some {| h := Number.round (Number.orElse ch 0);
              s := Number.round (Number.orElse cs 0 * 100);
              l := Number.round (Number.orElse cl 0 * 100) |}
  end.

(** [hslToHex]: [chroma.hsl(hsl.h, hsl.s / 100, hsl.l / 100).hex()] *)
Definition hslToHex (hsl : HSL) : string :=
  Chroma.rgb2hex
    (Chroma.hsl2rgb (inject_Z (h hsl))
       (inject_Z (s hsl) / 100) (inject_Z (l hsl) / 100)).

End Hsl.

(** ** Checking the grey slider positions *)

Module Sliders.

(** The integers [0 .. n]. *)
Definition upTo (n : nat) : list Z := map Z.of_nat (seq 0 (S n)).

(** Agreement of a conversion result with an expected triple. *)
Definition sameHsl (x : option Hsl.HSL) (y : Hsl.HSL) : bool :=
  match x with
  | Some v =>
      (Hsl.h v =? Hsl.h y) && (Hsl.s v =? Hsl.s y) && (Hsl.l v =? Hsl.l y)
  | None => false
  end.

(** The grey of lightness [l] comes back as it went in. *)
Definition greyBack (l : Z) : bool :=
  sameHsl
    (Hsl.hexToHsl (Hsl.hslToHex {| Hsl.h := 0; Hsl.s := 0; Hsl.l := l |}))
    {| Hsl.h := 0; Hsl.s := 0; Hsl.l := l |}.

Definition allGreysBack : bool := forallb greyBack (upTo 100).

End Sliders.

(** ** Contrast ratio of two colours

    [chroma.contrast] belongs to chroma-js, which is not under src/.  The
    ratio below is the WCAG 2.x formula of section 4.2 of the specification.
    A finite JavaScript number is a rational, and so is every finite value
    of [Math.pow]; the function itself is a parameter here.  The arithmetic
    is exact, so without the rounding of floating point. *)

Module WCAG.

Section Pow.

Local Open Scope Q_scope.

Variable Math_pow : Q -> Q -> Q.

(** Modelled from the spec: the channel linearisation inside
    [chroma.contrast] (chroma-js, not under src/): the channel over 255,
    divided by 12.92 up to 0.03928 and raised to 2.4 above. *)
Definition linearize (channel : Z) : Q :=
  let c := inject_Z channel / 255 in
  if Qle_bool c 0.03928 then c / 12.92
  else Math_pow ((c + 0.055) / 1.055) 2.4.

(** Modelled from the spec: relative luminance (chroma-js, not under
    src/), the weighted sum of the linearised channels. *)
Definition luminance (c : Chroma.RGB) : Q :=
  0.2126 * linearize (Chroma.r c) + 0.7152 * linearize (Chroma.g c)
  + 0.0722 * linearize (Chroma.b c).

(** Modelled from the spec: [chroma.contrast] (chroma-js, not under src/),
    the lighter luminance plus 0.05 over the darker plus 0.05. *)
Definition contrast (a b : Chroma.RGB) : number :=
  Num ((Chroma.Qmax (luminance a) (luminance b) + 0.05)
       / (Chroma.Qmin (luminance a) (luminance b) + 0.05)).

End Pow.

End WCAG.

(** [x == y] on numbers: the same value; [NaN] equals nothing. *)
Definition sameNumber (x y : number) : Prop :=
  match x, y with
  | Num a, Num b => (a == b)%Q
  | _, _ => False
  end.

(** A valid colour: three integer channels between 0 and 255. *)
Definition validRGB (c : Chroma.RGB) : Prop :=
  0 <= Chroma.r c <= 255 /\ 0 <= Chroma.g c <= 255 /\ 0 <= Chroma.b c <= 255.

Definition white : Chroma.RGB :=
  {| Chroma.r := 255; Chroma.g := 255; Chroma.b := 255 |}.

Definition black : Chroma.RGB :=
  {| Chroma.r := 0; Chroma.g := 0; Chroma.b := 0 |}.

(** ** Entry parser, trimming revision (src/src/App.tsx)

    The revision of [parseColorInput] and [formatColorValue] kept in
    src/src/App.tsx splits at the first comma only and trims both parts; it
    is the other of the two parsing modes the specification records. *)

Module TrimMode.

(** White space removed by [trim], among code units below 256. *)
Definition isWhiteSpace (c : ascii) : bool :=
  let n := N_of_ascii c in
  ((9 <=? n) && (n <=? 13) || (n =? 32) || (n =? 160))%N.

Fixpoint trimStart (s : string) : string :=
  match s with
  | EmptyString => EmptyString
  | String a t => if isWhiteSpace a then trimStart t else s
  end.

Fixpoint trimEnd (s : string) : string :=
  match s with
  | EmptyString => EmptyString
  | String a t =>
      match trimEnd t with
      | EmptyString => if isWhiteSpace a then EmptyString
                       else String a EmptyString
      | t' => String a t'
      end
  end.

Definition trim (s : string) : string := trimEnd (trimStart s).

(** [const [colorPart, ...labelParts] = input.split(',')]; [split] never
    returns an empty array, the last case is there for totality only. *)
Definition parseColorInput (input : string) : ColorEntry :=
  match JS.split "," input with
  | colorPart :: labelParts =>
      let trimmedColor := trim colorPart in
      let color :=
        if JS.testBareHex6 trimmedColor then "#" ++ trimmedColor
        else trimmedColor in
      let label :=
        match labelParts with
        | [] => None
        | _ :: _ => Some (trim (JS.join "," labelParts))
        end in
      {| color := color; label := label |}
  | [] => {| color := EmptyString; label := None |}
  end.

(** [entry.label ? `${entry.color}, ${entry.label}` : entry.color] *)
Definition formatColorValue (entry : ColorEntry) : string :=
  match label entry with
  | None => color entry
  | Some l => if JS.truthy l then color entry ++ ", " ++ l else color entry
  end.

End TrimMode.

(** ** The text areas *)

(** The change handlers of the two text areas and the text the areas show,
    in the exact-preservation revision (src/unnamed/part_001). *)
Module ExactEditor.

(** [value.split('\n').map(line => parseColorInput(line))] *)
Definition parseLines (value : string) : list ColorEntry :=
  map ExactMode.parseColorInput (JS.split JS.newline value).

Definition handleForegroundChange (value : string) (st : AppState)
  : AppState :=
  {| foregroundColors := map Some (parseLines value);
     backgroundColors := backgroundColors st;
     activeColorPicker := activeColorPicker st;
     draggedIndex := draggedIndex st;
     draggedRowIndex := draggedRowIndex st;
     saved := saved st |}.

Definition handleBackgroundChange (value : string) (st : AppState)
  : AppState :=
  {| foregroundColors := foregroundColors st;
     backgroundColors := map Some (parseLines value);
     activeColorPicker := activeColorPicker st;
     draggedIndex := draggedIndex st;
     draggedRowIndex := draggedRowIndex st;
     saved := saved st |}.

(** [colors.map(formatColorValue).join("\n")], for a list without holes. *)
Definition textareaValue (colors : list ColorEntry) : string :=
  JS.join (String JS.newline EmptyString)
    (map ExactMode.formatColorValue colors).

(** Decimal text of a count, as a template literal prints it. *)
Definition decimal (n : nat) : string :=
  NilZero.string_of_uint (Nat.to_uint n).

(** [Math.floor(Math.random() * 4) + 1], from the number drawn. *)
Definition randomCount (drawn : Q) : nat :=
  Z.to_nat (Qfloor (drawn * 4) + 1).

(** [handleRandom]: [drawnFg] and [drawnBg] are the two results of
    [Math.random()], [randomHex k] the text of the [k]-th
    [chroma.random().hex()] of the call. *)
Definition handleRandom (drawnFg drawnBg : Q) (randomHex : nat -> string)
  (st : AppState) : AppState :=
  let fgCount := randomCount drawnFg in
  let bgCount := randomCount drawnBg in
  let newForegroundColors :=
    map (fun i => Some {| color := randomHex i;
                          label := Some (" Column " ++ decimal (i + 1)) |})
        (seq 0 fgCount) in
  let newBackgroundColors :=
    map (fun i => Some {| color := randomHex (fgCount + i)%nat;
                          label := Some (" Row " ++ decimal (i + 1)) |})
        (seq 0 bgCount) in
  {| foregroundColors := newForegroundColors;
     backgroundColors := newBackgroundColors;
     activeColorPicker := activeColorPicker st;
     draggedIndex := draggedIndex st;
     draggedRowIndex := draggedRowIndex st;
     saved := Some {| fg := newForegroundColors;
                      bg := newBackgroundColors |} |}.

End ExactEditor.

(** The same in the trimming revision (src/src/App.tsx). *)
Module TrimEditor.

(** [value.split('\n').map(line => line.trim()).filter(Boolean)
    .map(parseColorInput)] *)
Definition parseLines (value : string) : list ColorEntry :=
  map TrimMode.parseColorInput
    (filter JS.truthy (map TrimMode.trim (JS.split JS.newline value))).

Definition handleForegroundChange (value : string) (st : AppState)
  : AppState :=
  {| foregroundColors := map Some (parseLines value);
     backgroundColors := backgroundColors st;
     activeColorPicker := activeColorPicker st;
     draggedIndex := draggedIndex st;
     draggedRowIndex := draggedRowIndex st;
     saved := saved st |}.

Definition handleBackgroundChange (value : string) (st : AppState)
  : AppState :=
  {| foregroundColors := foregroundColors st;
     backgroundColors := map Some (parseLines value);
     activeColorPicker := activeColorPicker st;
     draggedIndex := draggedIndex st;
     draggedRowIndex := draggedRowIndex st;
     saved := saved st |}.

(** [colors.map(formatColorValue).join("\n")], for a list without holes. *)
Definition textareaValue (colors : list ColorEntry) : string :=
  JS.join (String JS.newline EmptyString)
    (map TrimMode.formatColorValue colors).

End TrimEditor.

(** ** Clear and random (src/src/App.tsx) *)

Definition handleClear (st : AppState) : AppState :=
  let newForegroundColors :=
    [Some {| color := "#FFFFFF"; label := Some "White" |}] in
  let newBackgroundColors :=
    [Some {| color := "#000000"; label := Some "Black" |}] in
  {| foregroundColors := newForegroundColors;
     backgroundColors := newBackgroundColors;
     activeColorPicker := activeColorPicker st;
     draggedIndex := draggedIndex st;
     draggedRowIndex := draggedRowIndex st;
     saved := Some {| fg := newForegroundColors;
                      bg := newBackgroundColors |} |}.

(** [handleRandom]; [randomHex k] is the text of the [k]-th
    [chroma.random().hex()] of the call. *)
Definition handleRandom (randomHex : nat -> string) (st : AppState)
  : AppState :=
  let newForegroundColors :=
    [Some {| color := randomHex 0%nat; label := Some "Random" |}] in
  let newBackgroundColors :=
    [Some {| color := randomHex 1%nat; label := Some "Random" |}] in
  {| foregroundColors := newForegroundColors;
     backgroundColors := newBackgroundColors;
     activeColorPicker := activeColorPicker st;
     draggedIndex := draggedIndex st;
     draggedRowIndex := draggedRowIndex st;
     saved := Some {| fg := newForegroundColors;
                      bg := newBackgroundColors |} |}.

(** ** The cell class of the earlier revision (src/unnamed/part_000) *)

Definition getContrastClass (ratio : number) : string :=
  if Number.geb ratio (Num 7) then "passing-aaa"
  else if Number.geb ratio (Num 4.5) then "passing-aa"
  else "failing".

(** ** RGB view of the colour picker (src/src/App.tsx) *)

Module Rgb.

(** [hexToRgb]: [chroma(hex).rgb()], the channels rounded; [None] when
    [chroma(hex)] throws. *)
Definition hexToRgb (hex : string) : option Chroma.RGB :=
  match Chroma.hex2rgb hex with
  | Some c =>
      Some {| Chroma.r := Number.round (inject_Z (Chroma.r c));
              Chroma.g := Number.round (inject_Z (Chroma.g c));
              Chroma.b := Number.round (inject_Z (Chroma.b c)) |}
  | None => None
  end.

(** [rgbToHex]: [chroma(rgb.r, rgb.g, rgb.b).hex()] *)
Definition rgbToHex (rgb : Chroma.RGB) : string :=
  Chroma.rgb2hex
    (inject_Z (Chroma.r rgb), inject_Z (Chroma.g rgb),
     inject_Z (Chroma.b rgb)).

End Rgb.

(** ** Vocabulary of the further properties *)

(** The character does not occur in the string. *)
Fixpoint noChar (c : ascii) (s : string) : bool :=
  match s with
  | EmptyString => true
  | String a t => negb (Ascii.eqb a c) && noChar c t
  end.

(** How often the character occurs in the string. *)
Fixpoint countChar (c : ascii) (s : string) : nat :=
  match s with
  | EmptyString => 0%nat
  | String a t => ((if Ascii.eqb a c then 1 else 0) + countChar c t)%nat
  end.

(** Empty, or beginning with a character that is not white space. *)
Definition startsClean (s : string) : Prop :=
  match s with
  | EmptyString => True
  | String a _ => TrimMode.isWhiteSpace a = false
  end.

(** A drag gesture: the headers the pointer passes over, in order. *)
Definition dragAlong (type : DragType) (path : list nat) (st : AppState)
  : AppState :=
  fold_left (fun s index => handleDragOver index type s) path st.

(** The list with the cell at [fromIndex] taken out and put in again at
    [toIndex]. *)
Definition moved (a : JSArray.array) (fromIndex toIndex : nat)
  : JSArray.array :=
  JSArray.spliceInsert (JSArray.spliceRemove a fromIndex) toIndex
    (JSArray.get a fromIndex).

(** An entry as the trimming parser leaves it when the label is not empty:
    a colour without comma or outer white space that is not six bare hex
    digits, and a label, if any, that is not empty and has no outer white
    space. *)
Definition trimNormal (e : ColorEntry) : Prop :=
  noChar "," (color e) = true /\
  TrimMode.trim (color e) = color e /\
  JS.testBareHex6 (color e) = false /\
  match label e with
  | None => True
  | Some l => TrimMode.trim l = l /\ l <> EmptyString
  end.

(** A normal entry that shows as one non-empty line: no newline in its
    colour or label, and a colour that is not empty when there is no
    label. *)
Definition trimShown (e : ColorEntry) : Prop :=
  trimNormal e /\
  noChar JS.newline (color e) = true /\
  match label e with
  | Some l => noChar JS.newline l = true
  | None => color e <> EmptyString
  end.

(** ** The colour picker in the render (src/src/App.tsx)

    The swatches open and close the picker (lines 567-579 and 632-644); the
    render of [App] builds the picker element from the entry the picker
    points at (lines 761-775) and hands it [handleColorChange] as its
    [onChange]. *)

Definition sameAxis (a b : AxisType) : bool :=
  match a, b with
  | foreground, foreground | background, background => true
  | _, _ => false
  end.

(** [onClick] of the swatch at [index] of an axis: a click on the swatch the
    picker is open on closes it, any other click opens it there. *)
Definition clickSwatch (which : AxisType) (index : nat) (st : AppState)
  : AppState :=
  let picker :=
    match activeColorPicker st with
    | Some (type, i) =>
        if sameAxis type which && Nat.eqb i index then None
        else Some (which, index)
    | None => Some (which, index)
    end in
  {| foregroundColors := foregroundColors st;
     backgroundColors := backgroundColors st;
     activeColorPicker := picker;
     draggedIndex := draggedIndex st;
     draggedRowIndex := draggedRowIndex st;
     saved := saved st |}.

(** What the render makes of
    [{activeColorPicker && <ColorPicker color={...} onChange={...} />}]:
    nothing, a picker with its [color] prop, or the [TypeError] of reading
    [.color] of [undefined], which ends the render. *)
Inductive PickerRender : Type :=
  | NoPicker
  | Picker (color : string)
  | RenderError.

Definition renderPicker (st : AppState) : PickerRender :=
  match activeColorPicker st with
  | None => NoPicker
  | Some (type, index) =>
      let entry :=
        match type with
        | foreground => JSArray.get (foregroundColors st) index
        | background => JSArray.get (backgroundColors st) index
        end in
      match entry with
      | Some e => Picker (color e)
      | None => RenderError
      end
  end.

(** [onChange(newColor)] called by the picker.  Only a picker element the
    render has built can call the handler; [None] when there is none.  The
    picker's own render, which reads its [color] prop through [chroma], is
    not part of this. *)
Definition pickerChange (newColor : string) (st : AppState)
  : option AppState :=
  match renderPicker st with
  | Picker _ => Some (handleColorChange newColor st)
  | NoPicker | RenderError => None
  end.

(** ** Sample states *)

(** The default lists with the picker open on [(which, index)]. *)
Definition pickerOpenOn (which : AxisType) (index : nat) : AppState :=
  {| foregroundColors := map Some defaultForeground;
     backgroundColors := map Some defaultBackground;
     activeColorPicker := Some (which, index);
     draggedIndex := None;
     draggedRowIndex := None;
     saved := None |}.

(** The default lists, nothing open, nothing dragged. *)
Definition initialState : AppState :=
  {| foregroundColors := map Some defaultForeground;
     backgroundColors := map Some defaultBackground;
     activeColorPicker := None;
     draggedIndex := None;
     draggedRowIndex := None;
     saved := None |}.

(** A drag started on the header at [index]. *)
Definition draggingFrom (type : DragType) (index : nat) : AppState :=
  handleDragStart index type initialState.

(** The third foreground swatch clicked, then the foreground text replaced
    by a single line: the picker stays on index 2 of a one-entry list. *)
Definition shortenedUnderPicker : AppState :=
  TrimEditor.handleForegroundChange "#FFFFFF"
    (clickSwatch foreground 2 initialState).

(** * Properties *)

(** ** Entry parser (exact-preservation revision) *)

Section IndexOf.

Lemma indexOfFrom_shift (c : ascii) (s : string) (i : Z) :
  0 <= i ->
  JS.indexOfFrom c s (i + 1) =
  (if JS.indexOfFrom c s i =? -1 then -1 else JS.indexOfFrom c s i + 1).
Proof.
  revert i. induction s as [|a t IH]; intros i Hi; simpl.
  - reflexivity.
  - destruct (Ascii.eqb a c).
    + destruct (Z.eqb_spec i (-1)); [lia|reflexivity].
    + apply IH. lia.
Qed.

Lemma indexOf_cons (c a : ascii) (t : string) :
  JS.indexOf c (String a t) =
  if Ascii.eqb a c then 0
  else if JS.indexOf c t =? -1 then -1 else JS.indexOf c t + 1.
Proof.
  unfold JS.indexOf. simpl. destruct (Ascii.eqb a c); [reflexivity|].
  apply (indexOfFrom_shift c t 0). lia.
Qed.

Lemma indexOf_range (c : ascii) (s : string) :
  JS.indexOf c s = -1 \/ 0 <= JS.indexOf c s < Z.of_nat (String.length s).
Proof.
  induction s as [|a t IH].
  - left. reflexivity.
  - rewrite indexOf_cons. cbn [String.length]. destruct (Ascii.eqb a c); [right; lia|].
    destruct (Z.eqb_spec (JS.indexOf c t) (-1)); [now left|right; lia].
Qed.

End IndexOf.

Lemma colorEndIndex_cons (a : ascii) (t : string) :
  ExactMode.colorEndIndex (String a t) =
  if isDelim a then 0
  else if ExactMode.colorEndIndex t =? -1 then -1
       else ExactMode.colorEndIndex t + 1.
Proof.
  unfold ExactMode.colorEndIndex, isDelim. rewrite !indexOf_cons.
  pose proof (indexOf_range "," t) as Hc.
  pose proof (indexOf_range " " t) as Hs.
  set (ic := JS.indexOf "," t) in *. set (isp := JS.indexOf " " t) in *.
  clearbody ic isp.
  destruct (Ascii.eqb_spec a ","), (Ascii.eqb_spec a " "); subst;
    try discriminate; cbn [orb];
    destruct (Z.eqb_spec ic (-1)), (Z.eqb_spec isp (-1)); subst;
    cbn [negb andb];
    repeat match goal with
           | |- context [?x =? ?y] =>
               first [ replace (x =? y) with true
                         by (symmetry; apply Z.eqb_eq; lia)
                     | replace (x =? y) with false
                         by (symmetry; apply Z.eqb_neq; lia) ];
               cbn [negb andb]
           end; lia.
Qed.

(** Without a delimiter the index is [-1]. *)
Lemma colorEndIndex_noDelim (s : string) :
  noDelim s = true -> ExactMode.colorEndIndex s = -1.
Proof.
  induction s as [|a t IH]; [reflexivity|]. simpl noDelim.
  intro H. apply andb_prop in H as [Ha Ht]. rewrite colorEndIndex_cons.
  destruct (isDelim a); [discriminate|]. now rewrite (IH Ht).
Qed.

(** The index is the position of the first delimiter. *)
Lemma colorEndIndex_split (p : string) (d : ascii) (r : string) :
  noDelim p = true -> isDelim d = true ->
  ExactMode.colorEndIndex (p ++ String d r) = Z.of_nat (String.length p).
Proof.
  intros Hp Hd. induction p as [|a t IH].
  - simpl. rewrite colorEndIndex_cons, Hd. reflexivity.
  - simpl noDelim in Hp. apply andb_prop in Hp as [Ha Ht].
    cbn [append String.length]. rewrite colorEndIndex_cons.
    destruct (isDelim a); [discriminate|]. rewrite (IH Ht).
    destruct (Z.eqb_spec (Z.of_nat (String.length t)) (-1)); lia.
Qed.

Lemma substring_zero_all (s : string) :
  String.substring 0 (String.length s) s = s.
Proof. induction s as [|a t IH]; simpl; [reflexivity|now rewrite IH]. Qed.

Lemma substring_prefix (p q : string) :
  String.substring 0 (String.length p) (p ++ q) = p.
Proof.
  induction p as [|a t IH]; simpl.
  - destruct q; reflexivity.
  - now rewrite IH.
Qed.

Lemma substring_suffix (p q : string) :
  String.substring (String.length p) (String.length q) (p ++ q) = q.
Proof.
  induction p as [|a t IH]; simpl; [apply substring_zero_all|exact IH].
Qed.

Lemma length_append (p q : string) :
  String.length (p ++ q) = (String.length p + String.length q)%nat.
Proof. induction p as [|a t IH]; simpl; [reflexivity|now rewrite IH]. Qed.

Lemma js_substring_prefix (p q : string) :
  JS.substring (p ++ q) 0 (Z.of_nat (String.length p)) = p.
Proof.
  unfold JS.substring, JS.clamp. rewrite length_append.
  replace (Z.to_nat _) with 0%nat by lia.
  replace (Z.to_nat _) with (String.length p) by lia.
  apply substring_prefix.
Qed.

Lemma js_substringFrom_suffix (p q : string) :
  JS.substringFrom (p ++ q) (Z.of_nat (String.length p)) = q.
Proof.
  unfold JS.substringFrom, JS.substring, JS.clamp. rewrite length_append.
  replace (Z.to_nat (Z.min _ _)) with (String.length p) by lia.
  replace (Z.to_nat _) with (String.length q) by lia.
  apply substring_suffix.
Qed.

Lemma parseColorInput_whole_line (line : string) :
  noDelim line = true ->
  ExactMode.parseColorInput line = {| color := line; label := None |}.
Proof.
  intro H. unfold ExactMode.parseColorInput.
  now rewrite (colorEndIndex_noDelim _ H).
Qed.

Lemma parseColorInput_at_delimiter (p : string) (d : ascii) (r : string) :
  noDelim p = true -> isDelim d = true ->
  ExactMode.parseColorInput (p ++ String d r) =
  {| color := ExactMode.autoPrefix p; label := Some (String d r) |}.
Proof.
  intros Hp Hd. unfold ExactMode.parseColorInput.
  rewrite (colorEndIndex_split p d r Hp Hd).
  destruct (Z.eqb_spec (Z.of_nat (String.length p)) (-1)); [lia|].
  now rewrite js_substring_prefix, js_substringFrom_suffix.
Qed.

(** C1. For every input line, [parseColorInput] splits at the first comma or
    space, whichever comes first: a line without either is the colour as it
    stands and has no label; a line [p ++ d :: r] whose prefix [p] is free of
    delimiters and whose [d] is a comma or a space yields the colour token [p]
    (given its [#] when it is six bare hex digits) and the label [d :: r],
    the rest of the line verbatim from the split point on. *)
Theorem parseColorInput_splits_at_first_delimiter (line : string) :
  (noDelim line = true ->
   ExactMode.parseColorInput line = {| color := line; label := None |}) /\
  (forall (p : string) (d : ascii) (r : string),
     line = p ++ String d r -> noDelim p = true -> isDelim d = true ->
     ExactMode.parseColorInput line =
     {| color := ExactMode.autoPrefix p; label := Some (String d r) |}).
Proof.
  split.
  - apply parseColorInput_whole_line.
  - intros p d r -> Hp Hd. now apply parseColorInput_at_delimiter.
Qed.

Lemma parseColorInput_splits_witness :
  ExactMode.parseColorInput "#FF0000" = {| color := "#FF0000"; label := None |} /\
  ExactMode.parseColorInput "FF00FF, Pink" =
  {| color := "#FF00FF"; label := Some ", Pink" |} /\
  ExactMode.parseColorInput "rgb(1 2 3),x" =
  {| color := "rgb(1"; label := Some " 2 3),x" |}.
Proof.
  split; [|split].
  - apply (proj1 (parseColorInput_splits_at_first_delimiter "#FF0000")).
    reflexivity.
  - apply (proj2 (parseColorInput_splits_at_first_delimiter "FF00FF, Pink")
             "FF00FF" ","%char " Pink"); reflexivity.
  - apply (proj2 (parseColorInput_splits_at_first_delimiter "rgb(1 2 3),x")
             "rgb(1" " "%char "2 3),x"); reflexivity.
Defined.

(** Every line is its colour token followed, when it has a delimiter, by the
    rest of the line starting at that delimiter. *)
Lemma colorToken_noDelim (s : string) : noDelim (colorToken s) = true.
Proof.
  induction s as [|a t IH]; [reflexivity|]. simpl.
  destruct (isDelim a) eqn:E; [reflexivity|]. simpl. now rewrite E, IH.
Qed.

Lemma colorToken_split (s : string) :
  noDelim s = false ->
  exists (d : ascii) (r : string),
    s = colorToken s ++ String d r /\ isDelim d = true.
Proof.
  induction s as [|a t IH]; [discriminate|]. simpl.
  destruct (isDelim a) eqn:E; simpl.
  - intros _. exists a, t. now split.
  - intro H. destruct (IH H) as (d & r & Hs & Hd).
    exists d, r. split; [now rewrite <- Hs|exact Hd].
Qed.

(** C2. For every line that does not trigger the bare-hex normalisation,
    formatting the parsed entry gives the line back:
    [formatColorValue (parseColorInput line) = line]. *)
Theorem format_parse_roundtrip (line : string) :
  triggersAutoPrefix line = false ->
  ExactMode.formatColorValue (ExactMode.parseColorInput line) = line.
Proof.
  unfold triggersAutoPrefix. intro H.
  destruct (noDelim line) eqn:Hn.
  - now rewrite (parseColorInput_whole_line line Hn).
  - simpl in H. destruct (colorToken_split line Hn) as (d & r & Hs & Hd).
    rewrite Hs at 1.
    rewrite (parseColorInput_at_delimiter _ d r (colorToken_noDelim line) Hd).
    unfold ExactMode.formatColorValue, ExactMode.autoPrefix. simpl.
    rewrite H. symmetry. exact Hs.
Qed.

Lemma format_parse_roundtrip_witness :
  ExactMode.formatColorValue (ExactMode.parseColorInput "#FF0000, Red Button")
  = "#FF0000, Red Button" /\
  ExactMode.formatColorValue (ExactMode.parseColorInput "FF00FF")
  = "FF00FF".
Proof.
  split.
  - apply (format_parse_roundtrip "#FF0000, Red Button"). reflexivity.
  - apply (format_parse_roundtrip "FF00FF"). reflexivity.
Defined.

(** The hypothesis of the round trip is tight: a line that does trigger the
    normalisation comes back with the added [#]. *)
Lemma format_parse_normalised (line : string) :
  triggersAutoPrefix line = true ->
  ExactMode.formatColorValue (ExactMode.parseColorInput line) = "#" ++ line.
Proof.
  unfold triggersAutoPrefix. intro H. apply andb_prop in H as [Hn Hx].
  apply negb_true_iff in Hn.
  destruct (colorToken_split line Hn) as (d & r & Hs & Hd).
  rewrite Hs at 1.
  rewrite (parseColorInput_at_delimiter _ d r (colorToken_noDelim line) Hd).
  unfold ExactMode.formatColorValue, ExactMode.autoPrefix. simpl.
  rewrite Hx. simpl. now rewrite <- Hs.
Qed.

(** ** Arrays: reading after an update *)

Section ArrayFacts.

Local Open Scope nat_scope.
Local Open Scope list_scope.

Implicit Types (a : JSArray.array) (x : JSArray.slot) (v : ColorEntry).

Lemma get_nth_error a i x :
  nth_error a i = Some x -> JSArray.get a i = x.
Proof. unfold JSArray.get. now intros ->. Qed.

Lemma set_in_range a i v :
  i < List.length a ->
  JSArray.set a i v = firstn i a ++ Some v :: skipn (S i) a.
Proof.
  intro H. unfold JSArray.set.
  destruct (Nat.ltb_spec i (List.length a)); [reflexivity|lia].
Qed.

Lemma set_past_end a i v :
  List.length a <= i ->
  JSArray.set a i v = a ++ repeat None (i - List.length a) ++ [Some v].
Proof.
  intro H. unfold JSArray.set.
  destruct (Nat.ltb_spec i (List.length a)); [lia|reflexivity].
Qed.

Lemma length_set_in_range a i v :
  i < List.length a -> List.length (JSArray.set a i v) = List.length a.
Proof.
  intro H. rewrite (set_in_range a i v H).
  rewrite length_app, length_firstn. cbn [List.length].
  rewrite length_skipn. lia.
Qed.

Lemma nth_error_set_same a i v :
  i < List.length a -> nth_error (JSArray.set a i v) i = Some (Some v).
Proof.
  intro H. rewrite (set_in_range a i v H).
  rewrite nth_error_app2; rewrite length_firstn; [|lia].
  replace (i - Nat.min i (List.length a)) with 0 by lia. reflexivity.
Qed.

Lemma nth_error_set_other a i j v :
  i < List.length a -> j <> i ->
  nth_error (JSArray.set a i v) j = nth_error a j.
Proof.
  intros H Hj. rewrite (set_in_range a i v H).
  rewrite nth_error_app, length_firstn, nth_error_firstn.
  replace (Nat.min i (List.length a)) with i by lia.
  destruct (Nat.ltb_spec j i); [reflexivity|].
  destruct (j - i) as [|k] eqn:E; [lia|]. cbn [nth_error].
  rewrite nth_error_skipn. f_equal. lia.
Qed.

Lemma length_spliceRemove a i :
  i < List.length a ->
  List.length (JSArray.spliceRemove a i) = List.length a - 1.
Proof.
  intro H. unfold JSArray.spliceRemove.
  rewrite length_app, length_firstn, length_skipn. lia.
Qed.

Lemma nth_error_spliceRemove a i j :
  i < List.length a ->
  nth_error (JSArray.spliceRemove a i) j =
  if j <? i then nth_error a j else nth_error a (S j).
Proof.
  intro H. unfold JSArray.spliceRemove.
  rewrite nth_error_app, length_firstn, nth_error_firstn.
  replace (Nat.min i (List.length a)) with i by lia.
  destruct (Nat.ltb_spec j i); [reflexivity|].
  rewrite nth_error_skipn. f_equal. lia.
Qed.

Lemma length_spliceInsert a i x :
  List.length (JSArray.spliceInsert a i x) = S (List.length a).
Proof.
  unfold JSArray.spliceInsert.
  rewrite length_app, length_firstn. cbn [List.length].
  rewrite length_skipn. lia.
Qed.

Lemma nth_error_spliceInsert a i x j :
  i <= List.length a ->
  nth_error (JSArray.spliceInsert a i x) j =
  if j <? i then nth_error a j
  else if j =? i then Some x else nth_error a (j - 1).
Proof.
  intro H. unfold JSArray.spliceInsert.
  rewrite nth_error_app, length_firstn, nth_error_firstn.
  replace (Nat.min i (List.length a)) with i by lia.
  destruct (Nat.ltb_spec j i); [reflexivity|].
  destruct (Nat.eqb_spec j i) as [->|Hne].
  - now rewrite Nat.sub_diag.
  - destruct (j - i) as [|k] eqn:E; [lia|]. cbn [nth_error].
    rewrite nth_error_skipn. f_equal. lia.
Qed.

(** Removing a cell and inserting it anywhere rearranges the array. *)
Lemma spliceRemove_Insert_Permutation a i j x :
  nth_error a i = Some x ->
  Permutation (JSArray.spliceInsert (JSArray.spliceRemove a i) j x) a.
Proof.
  intro H. unfold JSArray.spliceInsert.
  set (b := JSArray.spliceRemove a i).
  transitivity (x :: b).
  - symmetry. rewrite <- (firstn_skipn j b) at 1. apply Permutation_middle.
  - subst b. unfold JSArray.spliceRemove.
    rewrite <- (firstn_skipn_middle i a H) at 3. apply Permutation_middle.
Qed.

End ArrayFacts.

(** ** Editing the colour of one entry *)

Section ColorChange.

Local Open Scope nat_scope.
Local Open Scope list_scope.

Lemma handleColorChange_other_axis which index newColor st :
  activeColorPicker st = Some (which, index) ->
  axisOf (otherAxis which) (handleColorChange newColor st) =
  axisOf (otherAxis which) st.
Proof.
  intro H. unfold handleColorChange. rewrite H. now destruct which.
Qed.

Lemma handleColorChange_axis which index newColor st :
  activeColorPicker st = Some (which, index) ->
  axisOf which (handleColorChange newColor st) =
  JSArray.set (axisOf which st) index
    (withColor (JSArray.get (axisOf which st) index) newColor).
Proof.
  intro H. unfold handleColorChange. rewrite H. now destruct which.
Qed.

End ColorChange.

Section PickerRendering.

Local Open Scope nat_scope.

(** The render builds a picker exactly when the picker points at an entry. *)
Lemma renderPicker_entry which index st :
  activeColorPicker st = Some (which, index) ->
  renderPicker st =
  match JSArray.get (axisOf which st) index with
  | Some e => Picker (color e)
  | None => RenderError
  end.
Proof.
  intro H. unfold renderPicker. rewrite H. now destruct which.
Qed.

Lemma get_past_end (a : JSArray.array) (i : nat) :
  List.length a <= i -> JSArray.get a i = None.
Proof.
  intro H. unfold JSArray.get.
  now rewrite (proj2 (nth_error_None a i) H).
Qed.

Lemma pickerChange_past_end which index newColor st :
  activeColorPicker st = Some (which, index) ->
  List.length (axisOf which st) <= index ->
  pickerChange newColor st = None.
Proof.
  intros H Hout. unfold pickerChange.
  rewrite (renderPicker_entry which index st H).
  now rewrite (get_past_end _ _ Hout).
Qed.

Lemma pickerChange_in_range which index newColor st st' :
  activeColorPicker st = Some (which, index) ->
  pickerChange newColor st = Some st' ->
  (index < List.length (axisOf which st)) /\
  st' = handleColorChange newColor st.
Proof.
  intros H Hc.
  destruct (Nat.lt_ge_cases index (List.length (axisOf which st)))
    as [Hin|Hout].
  - split; [exact Hin|]. unfold pickerChange in Hc.
    destruct (renderPicker st); congruence.
  - rewrite (pickerChange_past_end which index newColor st H Hout) in Hc.
    discriminate.
Qed.

End PickerRendering.

(** C3, as stated, fails.  Click the third foreground swatch of the default
    grid: the picker opens on red.  Replace the foreground text by the single
    line [#FFFFFF]: the picker stays on index 2 of a list of one entry, the
    next render throws on reading the entry that is no longer there, and no
    colour change is applied, silently or otherwise. *)
Lemma stale_picker_render_throws :
  renderPicker (clickSwatch foreground 2 initialState) = Picker "#FF0000" /\
  activeColorPicker shortenedUnderPicker = Some (foreground, 2%nat) /\
  List.length (foregroundColors shortenedUnderPicker) = 1%nat /\
  renderPicker shortenedUnderPicker = RenderError /\
  pickerChange "#00FF00" shortenedUnderPicker = None.
Proof. repeat split. Qed.

(** C3, amended. With the picker open on [(which, index)], a colour change
    never touches the other axis.  When [index] is within the list, the list
    keeps its length, the entry at [index] gets the new colour and keeps its
    label, and every other position is unchanged.  When [index] is at or past
    the end there is no picker to report a colour, and no change is applied.
    A change the picker does report is the handler's, at an index within the
    list. *)
Theorem handleColorChange_effect (which : AxisType) (index : nat)
  (newColor : string) (st : AppState) :
  activeColorPicker st = Some (which, index) ->
  axisOf (otherAxis which) (handleColorChange newColor st) =
  axisOf (otherAxis which) st /\
  ((index < List.length (axisOf which st))%nat ->
   List.length (axisOf which (handleColorChange newColor st)) =
   List.length (axisOf which st) /\
   (forall e, JSArray.get (axisOf which st) index = Some e ->
      JSArray.get (axisOf which (handleColorChange newColor st)) index =
      Some {| color := newColor; label := label e |}) /\
   (forall j, j <> index ->
      nth_error (axisOf which (handleColorChange newColor st)) j =
      nth_error (axisOf which st) j)) /\
  ((List.length (axisOf which st) <= index)%nat ->
   pickerChange newColor st = None) /\
  (forall st', pickerChange newColor st = Some st' ->
     (index < List.length (axisOf which st))%nat /\
     st' = handleColorChange newColor st).
Proof.
  intro H. split; [|split; [|split]].
  - exact (handleColorChange_other_axis which index newColor st H).
  - intro Hin. rewrite (handleColorChange_axis which index newColor st H).
    split; [|split].
    + now apply length_set_in_range.
    + intros e He. apply get_nth_error.
      rewrite nth_error_set_same by exact Hin. now rewrite He.
    + intros j Hj. now apply nth_error_set_other.
  - exact (pickerChange_past_end which index newColor st H).
  - intros st'. exact (pickerChange_in_range which index newColor st st' H).
Qed.

Lemma handleColorChange_effect_witness :
  JSArray.get
    (foregroundColors
       (handleColorChange "#00FF00" (pickerOpenOn foreground 2))) 2 =
  Some {| color := "#00FF00"; label := Some "Red" |} /\
  backgroundColors (handleColorChange "#00FF00" (pickerOpenOn foreground 2)) =
  map Some defaultBackground /\
  pickerChange "#00FF00" (pickerOpenOn foreground 2) =
  Some (handleColorChange "#00FF00" (pickerOpenOn foreground 2)).
Proof.
  pose proof (handleColorChange_effect foreground 2 "#00FF00"
                (pickerOpenOn foreground 2) eq_refl) as (Hother & Hin & _).
  split; [|split; [exact Hother|reflexivity]].
  assert (Hlt : (2 < List.length
                   (axisOf foreground (pickerOpenOn foreground 2)))%nat)
    by (simpl; lia).
  destruct (Hin Hlt) as (_ & Hget & _).
  exact (Hget {| color := "#FF0000"; label := Some "Red" |} eq_refl).
Defined.

(** ** Reordering by drag *)

Section DragOver.

Local Open Scope nat_scope.
Local Open Scope list_scope.

(** What one [handleDragOver] does to the list being dragged in. *)
Lemma handleDragOver_axis type fromIndex toIndex st :
  draggedOf type st = Some fromIndex ->
  axisOf (axisOfDrag type) (handleDragOver toIndex type st) =
  if fromIndex =? toIndex then axisOf (axisOfDrag type) st
  else JSArray.spliceInsert
         (JSArray.spliceRemove (axisOf (axisOfDrag type) st) fromIndex)
         toIndex (JSArray.get (axisOf (axisOfDrag type) st) fromIndex).
Proof.
  intro H. unfold handleDragOver. destruct type; simpl in H |- *;
    rewrite H; now destruct (fromIndex =? toIndex).
Qed.

Lemma handleDragOver_other_axis type toIndex st :
  axisOf (otherAxis (axisOfDrag type)) (handleDragOver toIndex type st) =
  axisOf (otherAxis (axisOfDrag type)) st.
Proof.
  unfold handleDragOver. destruct type; simpl.
  - destruct (draggedIndex st) as [d|]; [|reflexivity].
    now destruct (d =? toIndex).
  - destruct (draggedRowIndex st) as [d|]; [|reflexivity].
    now destruct (d =? toIndex).
Qed.

(** Positions of the list after the dragged cell moved from [i] to [j]. *)
Lemma nth_error_moved (a : JSArray.array) (i j k : nat) :
  i < List.length a -> j < List.length a ->
  nth_error
    (JSArray.spliceInsert (JSArray.spliceRemove a i) j (JSArray.get a i)) k =
  if k =? j then nth_error a i
  else if (k <? i) && (k <? j) then nth_error a k
  else if (i <? k) && (j <? k) then nth_error a k
  else if k <? j then nth_error a (S k)
  else nth_error a (k - 1).
Proof.
  intros Hi Hj.
  rewrite nth_error_spliceInsert
    by (rewrite length_spliceRemove by exact Hi; lia).
  rewrite !nth_error_spliceRemove by exact Hi.
  destruct (nth_error a i) as [x|] eqn:Hx;
    [|apply nth_error_None in Hx; lia].
  rewrite (get_nth_error a i x Hx).
  destruct (Nat.eqb_spec k j) as [->|Hkj].
  - now rewrite Nat.ltb_irrefl.
  - destruct (Nat.ltb_spec k j), (Nat.ltb_spec k i), (Nat.ltb_spec i k),
      (Nat.ltb_spec j k), (Nat.ltb_spec (k - 1) i);
      cbn [andb]; try lia; try reflexivity; f_equal; lia.
Qed.

End DragOver.

(** C8. For every list and every pair of in-range indices, one
    [handleDragOver] with the dragged entry at [fromIndex] and the pointer
    over [toIndex] removes that entry and reinserts it at [toIndex]: the list
    keeps its length, position [toIndex] now holds the dragged entry,
    positions outside the span between the two indices are untouched, and the
    positions in between shift by one towards [fromIndex].  With
    [fromIndex = toIndex] nothing changes.  A three-entry list [A, B, C]
    dragged from 0 to 2 becomes [B, C, A]. *)
Theorem handleDragOver_moves_entry (type : DragType)
  (fromIndex toIndex : nat) (st : AppState) :
  draggedOf type st = Some fromIndex ->
  (fromIndex < List.length (axisOf (axisOfDrag type) st))%nat ->
  (toIndex < List.length (axisOf (axisOfDrag type) st))%nat ->
  let before := axisOf (axisOfDrag type) st in
  let after := axisOf (axisOfDrag type) (handleDragOver toIndex type st) in
  (fromIndex = toIndex -> handleDragOver toIndex type st = st) /\
  List.length after = List.length before /\
  nth_error after toIndex = nth_error before fromIndex /\
  (forall k, (k < fromIndex /\ k < toIndex)%nat \/
             (fromIndex < k /\ toIndex < k)%nat ->
     nth_error after k = nth_error before k) /\
  (forall k, (fromIndex <= k < toIndex)%nat ->
     nth_error after k = nth_error before (S k)) /\
  (forall k, (toIndex < k <= fromIndex)%nat ->
     nth_error after k = nth_error before (k - 1)) /\
  (forall A B C : JSArray.slot,
     before = [A; B; C] -> fromIndex = 0%nat -> toIndex = 2%nat ->
     after = [B; C; A]).
Proof.
  intros Hd Hf Ht before after.
  change (fromIndex < List.length before)%nat in Hf.
  change (toIndex < List.length before)%nat in Ht.
  assert (Hafter : after =
    if (fromIndex =? toIndex)%nat then before
    else JSArray.spliceInsert (JSArray.spliceRemove before fromIndex)
           toIndex (JSArray.get before fromIndex))
    by (apply handleDragOver_axis; exact Hd).
  assert (Hnth : forall k, nth_error after k =
    if (k =? toIndex)%nat then nth_error before fromIndex
    else if (k <? fromIndex)%nat && (k <? toIndex)%nat then nth_error before k
    else if (fromIndex <? k)%nat && (toIndex <? k)%nat then nth_error before k
    else if (k <? toIndex)%nat then nth_error before (S k)
    else nth_error before (k - 1)).
  { intro k. rewrite Hafter.
    destruct (Nat.eqb_spec fromIndex toIndex) as [E|E].
    - subst toIndex.
      destruct (Nat.eqb_spec k fromIndex) as [->|Hk]; [reflexivity|].
      destruct (Nat.ltb_spec k fromIndex), (Nat.ltb_spec fromIndex k);
        cbn [andb]; try reflexivity; lia.
    - now apply nth_error_moved. }
  repeat split.
  - intros ->. unfold handleDragOver.
    destruct type; simpl in Hd; rewrite Hd, Nat.eqb_refl; reflexivity.
  - rewrite Hafter. destruct (fromIndex =? toIndex)%nat; [reflexivity|].
    rewrite length_spliceInsert, length_spliceRemove by exact Hf. lia.
  - now rewrite Hnth, Nat.eqb_refl.
  - intros k Hk. rewrite Hnth.
    destruct (Nat.eqb_spec k toIndex); [lia|].
    destruct (Nat.ltb_spec k fromIndex), (Nat.ltb_spec k toIndex),
      (Nat.ltb_spec fromIndex k), (Nat.ltb_spec toIndex k);
      cbn [andb]; try reflexivity; lia.
  - intros k Hk. rewrite Hnth.
    destruct (Nat.eqb_spec k toIndex); [lia|].
    destruct (Nat.ltb_spec k fromIndex), (Nat.ltb_spec k toIndex),
      (Nat.ltb_spec fromIndex k), (Nat.ltb_spec toIndex k);
      cbn [andb]; try reflexivity; lia.
  - intros k Hk. rewrite Hnth.
    destruct (Nat.eqb_spec k toIndex); [lia|].
    destruct (Nat.ltb_spec k fromIndex), (Nat.ltb_spec k toIndex),
      (Nat.ltb_spec fromIndex k), (Nat.ltb_spec toIndex k);
      cbn [andb]; try reflexivity; lia.
  - intros A B C HB -> ->. rewrite Hafter, HB. reflexivity.
Qed.

Lemma handleDragOver_moves_entry_witness :
  foregroundColors (handleDragOver 2 column (draggingFrom column 0)) =
  map Some [ {| color := "#000000"; label := Some "Black" |};
             {| color := "#FF0000"; label := Some "Red" |};
             {| color := "#FFFFFF"; label := Some "White" |} ].
Proof.
  assert (H0 : (0 < List.length
                  (axisOf (axisOfDrag column) (draggingFrom column 0)))%nat)
    by (simpl; lia).
  assert (H2 : (2 < List.length
                  (axisOf (axisOfDrag column) (draggingFrom column 0)))%nat)
    by (simpl; lia).
  pose proof (handleDragOver_moves_entry column 0 2 (draggingFrom column 0)
                eq_refl H0 H2) as H.
  cbv zeta in H. destruct H as (_ & _ & _ & _ & _ & _ & H).
  exact (H _ _ _ eq_refl eq_refl eq_refl).
Defined.

(** C10. For every list and every pair of distinct in-range indices, one
    [handleDragOver] keeps the length of the list, rearranges its cells
    without duplicating, losing or altering any of them, and leaves the list
    of the other axis as it was. *)
Theorem handleDragOver_permutes (type : DragType)
  (fromIndex toIndex : nat) (st : AppState) :
  draggedOf type st = Some fromIndex ->
  (fromIndex < List.length (axisOf (axisOfDrag type) st))%nat ->
  (toIndex < List.length (axisOf (axisOfDrag type) st))%nat ->
  fromIndex <> toIndex ->
  List.length (axisOf (axisOfDrag type) (handleDragOver toIndex type st)) =
  List.length (axisOf (axisOfDrag type) st) /\
  Permutation (axisOf (axisOfDrag type) (handleDragOver toIndex type st))
              (axisOf (axisOfDrag type) st) /\
  axisOf (otherAxis (axisOfDrag type)) (handleDragOver toIndex type st) =
  axisOf (otherAxis (axisOfDrag type)) st.
Proof.
  intros Hd Hf Ht Hne.
  assert (Hperm :
    Permutation (axisOf (axisOfDrag type) (handleDragOver toIndex type st))
                (axisOf (axisOfDrag type) st)).
  { rewrite (handleDragOver_axis type fromIndex toIndex st Hd).
    destruct (Nat.eqb_spec fromIndex toIndex) as [E|_]; [contradiction|].
    destruct (nth_error (axisOf (axisOfDrag type) st) fromIndex) as [x|] eqn:Hx.
    - rewrite (get_nth_error _ _ _ Hx).
      now apply spliceRemove_Insert_Permutation.
    - apply nth_error_None in Hx. lia. }
  split; [|split].
  - now apply Permutation_length.
  - exact Hperm.
  - apply handleDragOver_other_axis.
Qed.

Lemma handleDragOver_permutes_witness :
  Permutation (backgroundColors (handleDragOver 0 row (draggingFrom row 2)))
              (map Some defaultBackground) /\
  foregroundColors (handleDragOver 0 row (draggingFrom row 2)) =
  map Some defaultForeground.
Proof.
  assert (H0 : (0 < List.length
                  (axisOf (axisOfDrag row) (draggingFrom row 2)))%nat)
    by (simpl; lia).
  assert (H2 : (2 < List.length
                  (axisOf (axisOfDrag row) (draggingFrom row 2)))%nat)
    by (simpl; lia).
  assert (Hne : 2%nat <> 0%nat) by discriminate.
  destruct (handleDragOver_permutes row 2 0 (draggingFrom row 2)
              eq_refl H2 H0 Hne) as (_ & Hp & Ho).
  split; [exact Hp|exact Ho].
Defined.

(** ** Start-up *)

(** C9. When nothing is stored, or the stored text does not parse as JSON,
    both initialisers fall back to their fixed default triples, white, black,
    red for the foreground and black, white, blue for the background; each
    initialiser reads and falls back on its own. *)
Theorem load_falls_back_to_defaults (JSON_parse : string -> option json)
  (savedColors : option string) :
  savedColors = None \/
  (exists text, savedColors = Some text /\ JSON_parse text = None) ->
  initForegroundColors JSON_parse savedColors =
  Some (jsonOfEntries defaultForeground) /\
  initBackgroundColors JSON_parse savedColors =
  Some (jsonOfEntries defaultBackground) /\
  map color defaultForeground = ["#FFFFFF"; "#000000"; "#FF0000"] /\
  map color defaultBackground = ["#000000"; "#FFFFFF"; "#0000FF"].
Proof.
  unfold initForegroundColors, initBackgroundColors, loadAxis.
  intros [->|(text & -> & Hp)].
  - repeat split.
  - rewrite Hp. destruct (JS.truthy text); repeat split.
Qed.

Lemma load_falls_back_to_defaults_witness :
  initForegroundColors (fun _ => None) (Some "{oops") =
  Some (jsonOfEntries defaultForeground) /\
  initBackgroundColors (fun _ => None) None =
  Some (jsonOfEntries defaultBackground).
Proof.
  split.
  - apply (load_falls_back_to_defaults (fun _ => None) (Some "{oops")).
    right. exists "{oops". split; reflexivity.
  - apply (load_falls_back_to_defaults (fun _ => None) None).
    left. reflexivity.
Defined.

(** ** Classification *)

Lemma geb_Num (a b : Q) : Number.geb (Num a) (Num b) = Qle_bool b a.
Proof. reflexivity. Qed.

Lemma Qle_bool_false (x y : Q) : (y < x)%Q -> Qle_bool x y = false.
Proof.
  intro H. destruct (Qle_bool x y) eqn:E; [|reflexivity].
  apply Qle_bool_iff in E. exfalso. exact (Qlt_not_le _ _ H E).
Qed.

(** C7. [getContrastLabel] gives AAA from 7 upwards, AA from 4.5 up to but
    not including 7, and the failing mark for everything else, a number that
    is not a number included; both thresholds belong to the upper tier.  In
    particular 7 is AAA, 6.99 and 4.5 are AA, 4.49 fails. *)
Theorem getContrastLabel_tiers :
  (forall q, (7 <= q)%Q -> getContrastLabel (Num q) = AAA) /\
  (forall q, (4.5 <= q)%Q -> (q < 7)%Q -> getContrastLabel (Num q) = AA) /\
  (forall q, (q < 4.5)%Q -> getContrastLabel (Num q) = FAIL) /\
  getContrastLabel NaN = FAIL /\
  getContrastLabel (Num 7) = AAA /\
  getContrastLabel (Num 6.99) = AA /\
  getContrastLabel (Num 4.5) = AA /\
  getContrastLabel (Num 4.49) = FAIL.
Proof.
  unfold getContrastLabel. repeat split.
  - intros q H. rewrite geb_Num. now rewrite (proj2 (Qle_bool_iff 7 q) H).
  - intros q Hlo Hhi. rewrite !geb_Num.
    rewrite (Qle_bool_false 7 q Hhi).
    now rewrite (proj2 (Qle_bool_iff 4.5 q) Hlo).
  - intros q H. rewrite !geb_Num.
    rewrite (Qle_bool_false 4.5 q H).
    assert (H7 : (q < 7)%Q) by (eapply Qlt_trans; [exact H|reflexivity]).
    now rewrite (Qle_bool_false 7 q H7).
Qed.

Lemma getContrastLabel_tiers_witness :
  getContrastLabel (Num 21) = AAA /\
  getContrastLabel (Num 5.25) = AA /\
  getContrastLabel (Num 1) = FAIL.
Proof.
  destruct getContrastLabel_tiers as (H7 & H45 & Hf & _).
  split; [|split].
  - apply H7. discriminate.
  - apply H45; reflexivity || discriminate.
  - apply Hf. reflexivity.
Defined.

(** ** HSL and hex *)

Section SliderRange.

Lemma upTo_In (n : nat) (z : Z) :
  0 <= z <= Z.of_nat n -> In z (Sliders.upTo n).
Proof.
  intro H. unfold Sliders.upTo. apply in_map_iff.
  exists (Z.to_nat z). split; [lia|]. apply in_seq. lia.
Qed.

Lemma sameHsl_eq (x : option Hsl.HSL) (y : Hsl.HSL) :
  Sliders.sameHsl x y = true -> x = Some y.
Proof.
  destruct x as [[h s l]|]; [|discriminate]. destruct y as [h' s' l'].
  unfold Sliders.sameHsl. simpl. intro H.
  repeat (apply andb_prop in H as [H ?]).
  f_equal. f_equal; now apply Z.eqb_eq.
Qed.

Lemma greys_come_back : Sliders.allGreysBack = true.
Proof. vm_compute. reflexivity. Qed.

(** Without saturation the hue plays no part in the hex text. *)
Lemma hslToHex_grey (h l : Z) :
  Hsl.hslToHex {| Hsl.h := h; Hsl.s := 0; Hsl.l := l |} =
  Hsl.hslToHex {| Hsl.h := 0; Hsl.s := 0; Hsl.l := l |}.
Proof. reflexivity. Qed.

Lemma grey_roundtrip (h l : Z) :
  0 <= l <= 100 ->
  Hsl.hexToHsl (Hsl.hslToHex {| Hsl.h := h; Hsl.s := 0; Hsl.l := l |}) =
  Some {| Hsl.h := 0; Hsl.s := 0; Hsl.l := l |}.
Proof.
  intro Hl. rewrite hslToHex_grey. apply sameHsl_eq.
  pose proof greys_come_back as H. unfold Sliders.allGreysBack in H.
  rewrite forallb_forall in H. apply H. apply (upTo_In 100). lia.
Qed.

End SliderRange.

Section FlatChannels.

Local Open Scope Q_scope.

Lemma round_comp (p q : Q) : p == q -> Number.round p = Number.round q.
Proof. intro H. unfold Number.round. now rewrite H. Qed.

(** Between equal lightness bounds every channel is that bound. *)
Lemma hslChannel_flat (t1 t2 t3 : Q) :
  t1 == t2 -> Chroma.hslChannel t1 t2 t3 == t1.
Proof.
  intro H. unfold Chroma.hslChannel. cbv zeta.
  repeat match goal with
         | |- context [if ?c then _ else _] => destruct c
         end; try (setoid_replace t2 with t1 by (symmetry; exact H)); ring.
Qed.

Lemma hsl2rgb_flat (h s l : Q) (v : Z) :
  Qeq_bool s 0 = false ->
  (if Chroma.Qltb l (1 # 2) then l * (1 + s) else l + s - l * s) == l ->
  l * 255 == inject_Z v ->
  Chroma.hsl2rgb h s l =
  (inject_Z (Number.round (inject_Z v)),
   inject_Z (Number.round (inject_Z v)),
   inject_Z (Number.round (inject_Z v))).
Proof.
  intros Hs Ht2 Hv. unfold Chroma.hsl2rgb. rewrite Hs.
  set (t2 := if Chroma.Qltb l (1 # 2) then l * (1 + s) else l + s - l * s)
    in *.
  assert (Hflat : 2 * l - t2 == t2) by (rewrite Ht2; ring).
  assert (E : forall t3,
             Number.round (Chroma.hslChannel (2 * l - t2) t2 t3 * 255) =
             Number.round (inject_Z v)).
  { intro t3. apply round_comp.
    rewrite (hslChannel_flat _ _ t3 Hflat), Ht2, <- Hv. ring. }
  now rewrite !E.
Qed.

(** Lightness 0 is black and lightness 100 is white, whatever the hue and
    the saturation. *)
Lemma hslToHex_black (h s : Z) :
  Hsl.hslToHex {| Hsl.h := h; Hsl.s := s; Hsl.l := 0 |} = "#000000"%string.
Proof.
  unfold Hsl.hslToHex. cbn [Hsl.h Hsl.s Hsl.l].
  destruct (Qeq_bool (inject_Z s / 100) 0) eqn:Hs.
  - unfold Chroma.hsl2rgb. rewrite Hs. reflexivity.
  - rewrite (hsl2rgb_flat _ _ _ 0 Hs); [reflexivity| |reflexivity].
    change (Chroma.Qltb (inject_Z 0 / 100) (1 # 2)) with true.
    cbv iota. generalize (inject_Z s / 100). intro x.
    setoid_replace (inject_Z 0 / 100) with 0 by reflexivity. ring.
Qed.

Lemma hslToHex_white (h s : Z) :
  Hsl.hslToHex {| Hsl.h := h; Hsl.s := s; Hsl.l := 100 |} = "#ffffff"%string.
Proof.
  unfold Hsl.hslToHex. cbn [Hsl.h Hsl.s Hsl.l].
  destruct (Qeq_bool (inject_Z s / 100) 0) eqn:Hs.
  - unfold Chroma.hsl2rgb. rewrite Hs. reflexivity.
  - rewrite (hsl2rgb_flat _ _ _ 255 Hs); [reflexivity| |reflexivity].
    change (Chroma.Qltb (inject_Z 100 / 100) (1 # 2)) with false.
    cbv iota. generalize (inject_Z s / 100). intro x.
    setoid_replace (inject_Z 100 / 100) with 1 by reflexivity. ring.
Qed.

End FlatChannels.

(** The HSL view of a colour whose three channels are equal. *)
Lemma hexToHsl_grey (hex : string) (c : Chroma.RGB) :
  Chroma.hex2rgb hex = Some c ->
  Chroma.r c = Chroma.g c -> Chroma.g c = Chroma.b c ->
  Chroma.rgb2hsl c =
    (NaN, Num 0, Num ((inject_Z (Chroma.b c) / 255
                       + inject_Z (Chroma.b c) / 255) / 2)%Q) /\
  exists l',
    Hsl.hexToHsl hex = Some {| Hsl.h := 0; Hsl.s := 0; Hsl.l := l' |}.
Proof.
  intros Hc Hrg Hgb.
  assert (E : Chroma.rgb2hsl c =
    (NaN, Num 0, Num ((inject_Z (Chroma.b c) / 255
                       + inject_Z (Chroma.b c) / 255) / 2)%Q)).
  { unfold Chroma.rgb2hsl. rewrite Hrg, Hgb.
    set (x := (inject_Z (Chroma.b c) / 255)%Q).
    assert (Hmin : Chroma.Qmin x x = x)
      by (unfold Chroma.Qmin; now destruct (Qle_bool x x)).
    assert (Hmax : Chroma.Qmax x x = x)
      by (unfold Chroma.Qmax; now destruct (Qle_bool x x)).
    rewrite !Hmin, !Hmax.
    now rewrite (proj2 (Qeq_bool_iff x x) (Qeq_refl x)). }
  split; [exact E|].
  eexists. unfold Hsl.hexToHsl. rewrite Hc, E. reflexivity.
Qed.

(** C4, as stated, fails: three slider positions that do not come back.
    A triple of lightness 0 is black and returns as [(0, 0, 0)]; hue 360
    returns as hue 0; a faint colour returns with a different hue, the hex
    text keeping eight bits per channel. *)
Lemma hsl_roundtrip_not_exact :
  Hsl.inRange {| Hsl.h := 120; Hsl.s := 50; Hsl.l := 0 |} = true /\
  Hsl.hslToHex {| Hsl.h := 120; Hsl.s := 50; Hsl.l := 0 |} = "#000000" /\
  Hsl.hexToHsl (Hsl.hslToHex {| Hsl.h := 120; Hsl.s := 50; Hsl.l := 0 |}) =
  Some {| Hsl.h := 0; Hsl.s := 0; Hsl.l := 0 |} /\
  Hsl.hexToHsl (Hsl.hslToHex {| Hsl.h := 120; Hsl.s := 50; Hsl.l := 0 |}) <>
  Some {| Hsl.h := 120; Hsl.s := 50; Hsl.l := 0 |} /\
  Hsl.hexToHsl (Hsl.hslToHex {| Hsl.h := 360; Hsl.s := 100; Hsl.l := 50 |}) =
  Some {| Hsl.h := 0; Hsl.s := 100; Hsl.l := 50 |} /\
  Hsl.hexToHsl (Hsl.hslToHex {| Hsl.h := 17; Hsl.s := 1; Hsl.l := 50 |}) =
  Some {| Hsl.h := 20; Hsl.s := 1; Hsl.l := 50 |}.
Proof.
  repeat split; try (vm_compute; reflexivity).
  vm_compute. discriminate.
Qed.

(** C4, amended. Going from an in-range integer HSL triple to hex text and
    back is not exact in general.  For the triples without colour
    (saturation 0, or lightness 0 or 100) the result is hue 0, saturation 0
    and the lightness that went in.  For a colour read from hex text whose
    channels are equal the library reports no hue, and [hexToHsl] answers
    with hue 0 and saturation 0 instead of failing. *)
Theorem hsl_roundtrip_of_greys :
  (forall hsl : Hsl.HSL,
     Hsl.inRange hsl = true ->
     Hsl.s hsl = 0 \/ Hsl.l hsl = 0 \/ Hsl.l hsl = 100 ->
     Hsl.hexToHsl (Hsl.hslToHex hsl) =
     Some {| Hsl.h := 0; Hsl.s := 0; Hsl.l := Hsl.l hsl |}) /\
  (forall (hex : string) (c : Chroma.RGB),
     Chroma.hex2rgb hex = Some c ->
     Chroma.r c = Chroma.g c -> Chroma.g c = Chroma.b c ->
     (exists sat lum, Chroma.rgb2hsl c = (NaN, sat, lum)) /\
     exists l',
       Hsl.hexToHsl hex = Some {| Hsl.h := 0; Hsl.s := 0; Hsl.l := l' |}).
Proof.
  split.
  - intros [h s l] R A. unfold Hsl.inRange in R. cbn [Hsl.h Hsl.s Hsl.l] in *.
    repeat (apply andb_prop in R as [R ?]).
    destruct A as [->|[->| ->]].
    + apply grey_roundtrip. lia.
    + now rewrite hslToHex_black.
    + now rewrite hslToHex_white.
  - intros hex c Hc Hrg Hgb.
    destruct (hexToHsl_grey hex c Hc Hrg Hgb) as [E Hl].
    split; [|exact Hl]. rewrite E. eauto.
Qed.

Lemma hsl_roundtrip_of_greys_witness :
  Hsl.hexToHsl (Hsl.hslToHex {| Hsl.h := 200; Hsl.s := 0; Hsl.l := 40 |}) =
  Some {| Hsl.h := 0; Hsl.s := 0; Hsl.l := 40 |} /\
  exists l',
    Hsl.hexToHsl "#808080" = Some {| Hsl.h := 0; Hsl.s := 0; Hsl.l := l' |}.
Proof.
  destruct hsl_roundtrip_of_greys as [Hback Hgrey].
  split.
  - apply (Hback {| Hsl.h := 200; Hsl.s := 0; Hsl.l := 40 |}).
    + reflexivity.
    + left. reflexivity.
  - apply (Hgrey "#808080" {| Chroma.r := 128; Chroma.g := 128;
                              Chroma.b := 128 |}); reflexivity.
Defined.

(** ** Contrast of a cell *)

Section InvalidColours.

Context {Color : Type}.
Variable chroma : string -> option Color.
Variable contrast : Color -> Color -> number.

Lemma getRatio_invalid (color1 color2 : string) :
  isValidColor chroma color1 = false \/ isValidColor chroma color2 = false ->
  getRatio chroma contrast color1 color2 = Num 0.
Proof.
  unfold isValidColor, getRatio, chroma_contrast.
  destruct (chroma color1), (chroma color2); intros [H|H];
    try discriminate; reflexivity.
Qed.

(** On two colours the library accepts, [getRatio] is the library's ratio. *)
Lemma getRatio_valid (color1 color2 : string) (c1 c2 : Color) :
  chroma color1 = Some c1 -> chroma color2 = Some c2 ->
  getRatio chroma contrast color1 color2 = contrast c1 c2.
Proof.
  intros H1 H2. unfold getRatio, chroma_contrast. now rewrite H1, H2.
Qed.

Lemma cellRatio_invalid (fgColor bgColor : string) :
  isValidColor chroma fgColor = false \/ isValidColor chroma bgColor = false ->
  cellRatio chroma contrast fgColor bgColor = Num 0.
Proof.
  unfold cellRatio. intros [H|H]; rewrite H; [reflexivity|].
  now rewrite andb_false_r.
Qed.

End InvalidColours.

(** C6. Whatever the colour library accepts and whatever ratios it computes,
    a cell with at least one colour the library rejects shows the ratio 0 and
    the failing mark; nothing is thrown, the computation is a total
    function. *)
Theorem invalid_cell_is_zero_and_fails (Color : Type)
  (chroma : string -> option Color) (contrast : Color -> Color -> number)
  (fgColor bgColor : string) :
  isValidColor chroma fgColor = false \/ isValidColor chroma bgColor = false ->
  cellRatio chroma contrast fgColor bgColor = Num 0 /\
  getContrastLabel (cellRatio chroma contrast fgColor bgColor) = FAIL.
Proof.
  intro H. rewrite (cellRatio_invalid chroma contrast _ _ H).
  split; reflexivity.
Qed.

Lemma invalid_cell_is_zero_and_fails_witness :
  cellRatio Chroma.hex2rgb (fun _ _ => Num 21) "#FFFFFF" "not-a-color" = Num 0 /\
  getContrastLabel
    (cellRatio Chroma.hex2rgb (fun _ _ => Num 21) "#FFFFFF" "not-a-color")
  = FAIL.
Proof.
  destruct (invalid_cell_is_zero_and_fails Chroma.RGB Chroma.hex2rgb
              (fun _ _ => Num 21) "#FFFFFF" "not-a-color")
    as (H0 & HF).
  - right. reflexivity.
  - split; [exact H0|exact HF].
Defined.

(** ** The contrast formula *)

Section Luminance.

Local Open Scope Q_scope.

Variable Math_pow : Q -> Q -> Q.

Hypothesis pow_range :
  forall x : Q, 0 < x -> x <= 1 -> 0 <= Math_pow x 2.4 <= 1.
Hypothesis pow_one : forall x : Q, x == 1 -> Math_pow x 2.4 == 1.

Lemma Qle_bool_false_lt (x y : Q) : Qle_bool x y = false -> y < x.
Proof.
  intro H. apply Qnot_le_lt. intro Hle.
  apply Qle_bool_iff in Hle. congruence.
Qed.

Lemma channel_range (ch : Z) :
  (0 <= ch <= 255)%Z -> 0 <= inject_Z ch / 255 <= 1.
Proof.
  intros [Hlo Hhi].
  rewrite Zle_Qle in Hlo, Hhi.
  change (inject_Z 0) with 0 in Hlo. change (inject_Z 255) with 255 in Hhi.
  split.
  - apply Qle_shift_div_l; [reflexivity|]. lra.
  - apply Qle_shift_div_r; [reflexivity|]. lra.
Qed.

Lemma linearize_range (ch : Z) :
  (0 <= ch <= 255)%Z -> 0 <= WCAG.linearize Math_pow ch <= 1.
Proof.
  intro H. apply channel_range in H. unfold WCAG.linearize.
  cbv zeta. generalize dependent (inject_Z ch / 255). intros c [Hlo Hhi].
  destruct (Qle_bool c 0.03928) eqn:E.
  - split.
    + apply Qle_shift_div_l; [reflexivity|]. lra.
    + apply Qle_shift_div_r; [reflexivity|]. lra.
  - apply Qle_bool_false_lt in E. apply pow_range.
    + apply Qlt_shift_div_l; [reflexivity|]. lra.
    + apply Qle_shift_div_r; [reflexivity|]. lra.
Qed.

Lemma luminance_range (c : Chroma.RGB) :
  validRGB c -> 0 <= WCAG.luminance Math_pow c <= 1.
Proof.
  intros (Hr & Hg & Hb). unfold WCAG.luminance.
  pose proof (linearize_range _ Hr). pose proof (linearize_range _ Hg).
  pose proof (linearize_range _ Hb). lra.
Qed.

(** The lighter and the darker of two luminances. *)
Lemma Qmax_Qmin_cases (x y : Q) :
  (Chroma.Qmax x y = y /\ Chroma.Qmin x y = x /\ x <= y) \/
  (Chroma.Qmax x y = x /\ Chroma.Qmin x y = y /\ y < x).
Proof.
  unfold Chroma.Qmax, Chroma.Qmin. destruct (Qle_bool x y) eqn:E.
  - left. apply Qle_bool_iff in E. now repeat split.
  - right. apply Qle_bool_false_lt in E. now repeat split.
Qed.

Lemma ratio_bounds (hi lo : Q) :
  0 <= lo -> lo <= hi -> hi <= 1 ->
  1 <= (hi + 0.05) / (lo + 0.05) <= 21.
Proof.
  intros H0 H1 H2. assert (Hpos : 0 < lo + 0.05) by lra. split.
  - apply Qle_shift_div_l; [exact Hpos|]. lra.
  - apply Qle_shift_div_r; [exact Hpos|]. lra.
Qed.

Lemma ratio_of_two (x y : Q) :
  0 <= x <= 1 -> 0 <= y <= 1 ->
  1 <= (Chroma.Qmax x y + 0.05) / (Chroma.Qmin x y + 0.05) <= 21.
Proof.
  intros Hx Hy.
  destruct (Qmax_Qmin_cases x y) as [(-> & -> & H)|(-> & -> & H)];
    apply ratio_bounds; lra.
Qed.

Lemma ratio_comm (x y : Q) :
  (Chroma.Qmax x y + 0.05) / (Chroma.Qmin x y + 0.05) ==
  (Chroma.Qmax y x + 0.05) / (Chroma.Qmin y x + 0.05).
Proof.
  destruct (Qmax_Qmin_cases x y) as [(-> & -> & H)|(-> & -> & H)];
    destruct (Qmax_Qmin_cases y x) as [(-> & -> & H')|(-> & -> & H')];
    try reflexivity; try lra.
  assert (E : x == y) by lra. now rewrite E.
Qed.

Lemma ratio_same (x y : Q) :
  0 <= x -> x == y ->
  (Chroma.Qmax x y + 0.05) / (Chroma.Qmin x y + 0.05) == 1.
Proof.
  intros H0 E.
  destruct (Qmax_Qmin_cases x y) as [(-> & -> & H)|(-> & -> & H)];
    rewrite E; apply Qmult_inv_r; lra.
Qed.

Lemma linearize_255 : WCAG.linearize Math_pow 255 == 1.
Proof.
  unfold WCAG.linearize. cbv zeta.
  replace (Qle_bool (inject_Z 255 / 255) 0.03928) with false by reflexivity.
  apply pow_one. reflexivity.
Qed.

Lemma linearize_0 : WCAG.linearize Math_pow 0 == 0.
Proof. reflexivity. Qed.

Lemma luminance_white : WCAG.luminance Math_pow white == 1.
Proof.
  unfold WCAG.luminance, white. cbn [Chroma.r Chroma.g Chroma.b].
  rewrite linearize_255. reflexivity.
Qed.

Lemma luminance_black : WCAG.luminance Math_pow black == 0.
Proof.
  unfold WCAG.luminance, black. cbn [Chroma.r Chroma.g Chroma.b].
  rewrite linearize_0. reflexivity.
Qed.

Lemma ratio_white_black (x y : Q) :
  x == 1 -> y == 0 ->
  (Chroma.Qmax x y + 0.05) / (Chroma.Qmin x y + 0.05) == 21.
Proof.
  intros Hx Hy.
  destruct (Qmax_Qmin_cases x y) as [(-> & -> & H)|(-> & -> & H)];
    [lra|]. rewrite Hx, Hy. reflexivity.
Qed.

(** The ratio of two colours the library has read. *)
Lemma contrast_bounds (a b : Chroma.RGB) :
  validRGB a -> validRGB b ->
  exists q, WCAG.contrast Math_pow a b = Num q /\ 1 <= q <= 21.
Proof.
  intros Ha Hb. eexists. split; [reflexivity|].
  apply ratio_of_two; now apply luminance_range.
Qed.

Lemma contrast_comm (a b : Chroma.RGB) :
  sameNumber (WCAG.contrast Math_pow a b) (WCAG.contrast Math_pow b a).
Proof. apply ratio_comm. Qed.

Lemma contrast_same (a b : Chroma.RGB) :
  validRGB a -> a = b -> sameNumber (WCAG.contrast Math_pow a b) (Num 1).
Proof.
  intros Ha <-. apply ratio_same; [now apply luminance_range|reflexivity].
Qed.

Lemma contrast_white_black :
  sameNumber (WCAG.contrast Math_pow white black) (Num 21).
Proof. apply ratio_white_black; [apply luminance_white|apply luminance_black]. Qed.

End Luminance.

(** Colours read from hex text are valid. *)
Lemma hexValue_range (c : ascii) (v : Z) :
  Chroma.hexValue c = Some v -> 0 <= v <= 15.
Proof.
  unfold Chroma.hexValue.
  repeat match goal with
         | |- context [if ?t then _ else _] => destruct t eqn:?
         end; intro H; inversion H; subst; lia.
Qed.

Lemma hexValues_range (s : string) (vs : list Z) :
  Chroma.hexValues s = Some vs -> Forall (fun v => 0 <= v <= 15) vs.
Proof.
  revert vs. induction s as [|c t IH]; simpl; intros vs H.
  - inversion H. constructor.
  - destruct (Chroma.hexValue c) as [v|] eqn:Hv; [|discriminate].
    destruct (Chroma.hexValues t) as [ws|]; [|discriminate].
    inversion H; subst. constructor; [now apply (hexValue_range c)|now apply IH].
Qed.

Lemma hex2rgb_valid (hex : string) (c : Chroma.RGB) :
  Chroma.hex2rgb hex = Some c -> validRGB c.
Proof.
  unfold Chroma.hex2rgb.
  set (digits := match hex with String "#" t => t | _ => hex end).
  destruct (Chroma.hexValues digits) as [vs|] eqn:Hv; [|discriminate].
  apply hexValues_range in Hv.
  destruct vs as [|r1 [|r0 [|g1 [|g0 [|b1 [|b0 [|]]]]]]]; try discriminate;
    intro H;
    match type of H with
    | Some ?x = Some c => assert (E : c = x) by congruence; rewrite E
    end; unfold validRGB; cbn [Chroma.r Chroma.g Chroma.b];
    repeat match goal with
           | F : Forall _ (_ :: _) |- _ => inversion F; subst; clear F
           end; cbv beta in *; lia.
Qed.

(** C5. Let the library read every colour it accepts as three channels
    between 0 and 255 and compute the ratio by the WCAG formula, with a
    power function that keeps the interval from 0 (excluded) to 1 within 0
    to 1 and maps 1 to 1.  Then for every two valid colours [getRatio], and
    with it the ratio of the grid cell, is the same number in either order
    and lies between 1 and 21; a valid colour against itself gives 1; and
    [#FFFFFF], read as white, against [#000000], read as black, gives 21. *)
Theorem getRatio_symmetric_bounded (Math_pow : Q -> Q -> Q)
  (chroma : string -> option Chroma.RGB) (colorA colorB : string) :
  (forall x : Q, 0 < x -> x <= 1 -> 0 <= Math_pow x 2.4 <= 1)%Q ->
  (forall x : Q, x == 1 -> Math_pow x 2.4 == 1)%Q ->
  (forall s c, chroma s = Some c -> validRGB c) ->
  isValidColor chroma colorA = true ->
  isValidColor chroma colorB = true ->
  sameNumber (getRatio chroma (WCAG.contrast Math_pow) colorA colorB)
             (getRatio chroma (WCAG.contrast Math_pow) colorB colorA) /\
  (exists q : Q,
     getRatio chroma (WCAG.contrast Math_pow) colorA colorB = Num q /\
     (1 <= q <= 21)%Q) /\
  cellRatio chroma (WCAG.contrast Math_pow) colorA colorB =
  getRatio chroma (WCAG.contrast Math_pow) colorA colorB /\
  sameNumber (getRatio chroma (WCAG.contrast Math_pow) colorA colorA)
             (Num 1) /\
  (chroma "#FFFFFF" = Some white -> chroma "#000000" = Some black ->
   sameNumber (getRatio chroma (WCAG.contrast Math_pow) "#FFFFFF" "#000000")
              (Num 21)).
Proof.
  intros Hrange Hone Hvalid HA HB.
  unfold isValidColor in HA, HB.
  destruct (chroma colorA) as [a|] eqn:Ea; [|discriminate].
  destruct (chroma colorB) as [b|] eqn:Eb; [|discriminate].
  pose proof (Hvalid _ _ Ea) as Va. pose proof (Hvalid _ _ Eb) as Vb.
  split; [|split; [|split; [|split]]].
  - rewrite (getRatio_valid chroma _ _ _ a b Ea Eb).
    rewrite (getRatio_valid chroma _ _ _ b a Eb Ea).
    apply contrast_comm.
  - rewrite (getRatio_valid chroma _ _ _ a b Ea Eb).
    now apply contrast_bounds.
  - unfold cellRatio, isValidColor. now rewrite Ea, Eb.
  - rewrite (getRatio_valid chroma _ _ _ a a Ea Ea).
    now apply contrast_same.
  - intros Ew Ek.
    rewrite (getRatio_valid chroma _ _ _ white black Ew Ek).
    now apply contrast_white_black.
Qed.

Lemma getRatio_symmetric_bounded_witness :
  (exists q : Q,
     getRatio Chroma.hex2rgb (WCAG.contrast (fun x _ => x * x)%Q)
       "#336699" "#FFFFFF" = Num q /\ (1 <= q <= 21)%Q) /\
  sameNumber
    (getRatio Chroma.hex2rgb (WCAG.contrast (fun x _ => x * x)%Q)
       "#FFFFFF" "#000000") (Num 21).
Proof.
  destruct (getRatio_symmetric_bounded (fun x _ => x * x)%Q Chroma.hex2rgb
              "#336699" "#FFFFFF") as (_ & Hb & _ & _ & Hwk).
  - intros x H0 H1. split; nra.
  - intros x E. rewrite E. reflexivity.
  - exact hex2rgb_valid.
  - reflexivity.
  - reflexivity.
  - split; [exact Hb|exact (Hwk eq_refl eq_refl)].
Defined.

(** ** The trimming revision of the parser *)

(** The revision in src/src/App.tsx does not split at a space and does not
    keep the text after the colour verbatim: it is the other parsing mode. *)
Lemma trim_revision_differs :
  TrimMode.parseColorInput "rgb(1 2 3),x" =
  {| color := "rgb(1 2 3)"; label := Some "x" |} /\
  TrimMode.formatColorValue (TrimMode.parseColorInput "#FF0000,Red") =
  "#FF0000, Red" /\
  TrimMode.formatColorValue (TrimMode.parseColorInput "#FF0000, Red Button") =
  "#FF0000, Red Button".
Proof. repeat split. Qed.

(** * Further properties of the code *)

(** ** Splitting and joining text *)

Section SplitJoin.

Local Open Scope list_scope.

Lemma split_not_nil (c : ascii) (s : string) :
  exists piece rest, JS.split c s = piece :: rest.
Proof.
  destruct s as [|a t]; simpl; [eauto|].
  destruct (Ascii.eqb a c); [eauto|].
  destruct (JS.split c t); eauto.
Qed.

Lemma join_cons_char (sep : string) (a : ascii) (piece : string)
  (rest : list string) :
  JS.join sep (String a piece :: rest) =
  String a (JS.join sep (piece :: rest)).
Proof. destruct rest; reflexivity. Qed.

Lemma join_split (c : ascii) (s : string) :
  JS.join (String c EmptyString) (JS.split c s) = s.
Proof.
  induction s as [|a t IH]; [reflexivity|]. simpl JS.split.
  destruct (split_not_nil c t) as (p & r & E). rewrite E in IH |- *.
  destruct (Ascii.eqb_spec a c) as [->|Hne].
  - change (JS.join (String c EmptyString) (EmptyString :: p :: r))
      with (String c (JS.join (String c EmptyString) (p :: r))).
    now rewrite IH.
  - rewrite join_cons_char. now rewrite IH.
Qed.

Lemma split_app (c : ascii) (s1 s2 : string) :
  JS.split c (s1 ++ String c s2)%string = JS.split c s1 ++ JS.split c s2.
Proof.
  induction s1 as [|a t IH]; simpl.
  - now rewrite Ascii.eqb_refl.
  - rewrite IH. destruct (Ascii.eqb a c); [reflexivity|].
    destruct (split_not_nil c t) as (p & r & E). now rewrite E.
Qed.

Lemma split_noChar (c : ascii) (s : string) :
  noChar c s = true -> JS.split c s = [s].
Proof.
  induction s as [|a t IH]; [reflexivity|]. simpl.
  intro H. apply andb_prop in H as [Ha Ht].
  apply negb_true_iff in Ha. now rewrite Ha, (IH Ht).
Qed.

Lemma length_split (c : ascii) (s : string) :
  List.length (JS.split c s) = S (countChar c s).
Proof.
  induction s as [|a t IH]; [reflexivity|]. simpl.
  destruct (Ascii.eqb a c); simpl; [now rewrite IH|].
  destruct (split_not_nil c t) as (p & r & E).
  rewrite E in IH |- *. exact IH.
Qed.

End SplitJoin.

(** ** The text area of the exact-preservation revision *)

Lemma autoPrefix_noDelim (p : string) :
  noDelim p = true -> noDelim (ExactMode.autoPrefix p) = true.
Proof.
  intro H. unfold ExactMode.autoPrefix.
  destruct (JS.testBareHex6 p); [|exact H]. simpl. exact H.
Qed.

Lemma testBareHex6_hash (p : string) :
  JS.testBareHex6 p = true -> JS.testBareHex6 ("#" ++ p) = false.
Proof.
  unfold JS.testBareHex6. intro H. apply andb_prop in H as [Hl _].
  apply Nat.eqb_eq in Hl. simpl. now rewrite Hl.
Qed.

Lemma autoPrefix_idempotent (p : string) :
  ExactMode.autoPrefix (ExactMode.autoPrefix p) = ExactMode.autoPrefix p.
Proof.
  unfold ExactMode.autoPrefix at 2.
  destruct (JS.testBareHex6 p) eqn:E; unfold ExactMode.autoPrefix.
  - now rewrite (testBareHex6_hash p E), E.
  - now rewrite E.
Qed.

(** What formatting a parsed line gives, whether or not the line triggers
    the bare-hex rule. *)
Lemma format_parse_line (line : string) :
  ExactMode.formatColorValue (ExactMode.parseColorInput line) =
  if triggersAutoPrefix line then "#" ++ line else line.
Proof.
  destruct (triggersAutoPrefix line) eqn:T.
  - now apply format_parse_normalised.
  - unfold triggersAutoPrefix in T. destruct (noDelim line) eqn:Hn.
    + now rewrite (parseColorInput_whole_line line Hn).
    + simpl in T. destruct (colorToken_split line Hn) as (d & r & Hs & Hd).
      rewrite Hs at 1.
      rewrite (parseColorInput_at_delimiter _ d r (colorToken_noDelim line) Hd).
      unfold ExactMode.formatColorValue, ExactMode.autoPrefix. simpl.
      rewrite T. symmetry. exact Hs.
Qed.

(** X1. In the exact-preservation revision the text a text area shows after
    a change is the typed text with a [#] put in front of exactly the lines
    that trigger the bare-hex rule; when no line does, it is the typed text,
    character for character, blank lines and trailing newline included. *)
Theorem exact_textarea_shows_typed_text (value : string) :
  ExactEditor.textareaValue (ExactEditor.parseLines value) =
  JS.join (String JS.newline EmptyString)
    (map (fun line => if triggersAutoPrefix line then "#" ++ line else line)
       (JS.split JS.newline value)) /\
  (Forall (fun line => triggersAutoPrefix line = false)
     (JS.split JS.newline value) ->
   ExactEditor.textareaValue (ExactEditor.parseLines value) = value).
Proof.
  assert (E : ExactEditor.textareaValue (ExactEditor.parseLines value) =
    JS.join (String JS.newline EmptyString)
      (map (fun line =>
              if triggersAutoPrefix line then "#" ++ line else line)
         (JS.split JS.newline value))).
  { unfold ExactEditor.textareaValue, ExactEditor.parseLines.
    rewrite map_map. f_equal. apply map_ext. intro line.
    apply format_parse_line. }
  split; [exact E|].
  intro H. rewrite E.
  rewrite <- (join_split JS.newline value) at 2. f_equal.
  rewrite <- (map_id (JS.split JS.newline value)) at 2.
  apply map_ext_in. intros line Hin.
  rewrite Forall_forall in H. now rewrite (H line Hin).
Qed.

Lemma exact_textarea_shows_typed_text_witness :
  ExactEditor.textareaValue
    (ExactEditor.parseLines
       (String "#" (String "f" (String "f" (String "f" (String " "
          (String "a" (String JS.newline (String JS.newline
             (String "r" (String "e" (String "d" (String JS.newline
                EmptyString))))))))))))) =
  String "#" (String "f" (String "f" (String "f" (String " "
    (String "a" (String JS.newline (String JS.newline
       (String "r" (String "e" (String "d" (String JS.newline
          EmptyString))))))))))).
Proof.
  apply (proj2 (exact_textarea_shows_typed_text _)).
  repeat constructor.
Defined.

(** X2. In the exact-preservation revision a change of the text area gives
    one entry per line of the text, blank lines included: one more entry
    than the text has newlines.  The list is never empty; an emptied text
    area leaves a single entry whose colour is the empty text. *)
Theorem exact_parseLines_one_entry_per_line (value : string) :
  List.length (ExactEditor.parseLines value) =
  S (countChar JS.newline value) /\
  ExactEditor.parseLines value <> [] /\
  ExactEditor.parseLines "" = [ {| color := ""; label := None |} ].
Proof.
  assert (L : List.length (ExactEditor.parseLines value) =
              S (countChar JS.newline value)).
  { unfold ExactEditor.parseLines. now rewrite length_map, length_split. }
  split; [exact L|split; [|reflexivity]].
  intro E. rewrite E in L. discriminate.
Qed.

(** X3. In the exact-preservation revision parsing is stable under the
    round through the text area: a line that was parsed and formatted
    parses to the same entry again. *)
Theorem exact_parse_format_parse (line : string) :
  ExactMode.parseColorInput
    (ExactMode.formatColorValue (ExactMode.parseColorInput line)) =
  ExactMode.parseColorInput line.
Proof.
  destruct (noDelim line) eqn:Hn.
  - rewrite (parseColorInput_whole_line line Hn).
    unfold ExactMode.formatColorValue. cbn [label color].
    now apply parseColorInput_whole_line.
  - destruct (colorToken_split line Hn) as (d & r & Hs & Hd).
    pose proof (colorToken_noDelim line) as Hp.
    set (p := colorToken line) in *. clearbody p. subst line.
    rewrite (parseColorInput_at_delimiter p d r Hp Hd).
    unfold ExactMode.formatColorValue. cbn [label color JS.truthy].
    rewrite (parseColorInput_at_delimiter _ d r
               (autoPrefix_noDelim _ Hp) Hd).
    now rewrite autoPrefix_idempotent.
Qed.

(** ** The trimming revision of the parser and its text area *)

Section Trim.

Local Open Scope list_scope.

Lemma trimEnd_cons (a : ascii) (t : string) :
  TrimMode.trimEnd (String a t) =
  match TrimMode.trimEnd t with
  | EmptyString =>
      if TrimMode.isWhiteSpace a then EmptyString else String a EmptyString
  | String b u => String a (String b u)
  end.
Proof. reflexivity. Qed.

Lemma trimEnd_cons_clean (a : ascii) (t : string) :
  TrimMode.isWhiteSpace a = false ->
  TrimMode.trimEnd (String a t) = String a (TrimMode.trimEnd t).
Proof.
  intro H. rewrite trimEnd_cons. destruct (TrimMode.trimEnd t);
    [now rewrite H|reflexivity].
Qed.

Lemma trimEnd_idempotent (s : string) :
  TrimMode.trimEnd (TrimMode.trimEnd s) = TrimMode.trimEnd s.
Proof.
  induction s as [|a t IH]; [reflexivity|].
  rewrite (trimEnd_cons a t).
  destruct (TrimMode.trimEnd t) as [|b u] eqn:E.
  - destruct (TrimMode.isWhiteSpace a) eqn:W; [reflexivity|].
    now rewrite trimEnd_cons_clean.
  - rewrite trimEnd_cons, IH. reflexivity.
Qed.

Lemma trimStart_startsClean (s : string) : startsClean (TrimMode.trimStart s).
Proof.
  induction s as [|a t IH]; simpl; [exact I|].
  destruct (TrimMode.isWhiteSpace a) eqn:W; [exact IH|exact W].
Qed.

Lemma trimStart_clean (s : string) :
  startsClean s -> TrimMode.trimStart s = s.
Proof. destruct s as [|a t]; simpl; [reflexivity|]. now intros ->. Qed.

Lemma trimEnd_startsClean (s : string) :
  startsClean s -> startsClean (TrimMode.trimEnd s).
Proof.
  destruct s as [|a t]; [exact (fun H => H)|]. simpl startsClean at 1.
  intro W. now rewrite (trimEnd_cons_clean a t W).
Qed.

Lemma trim_startsClean (s : string) : startsClean (TrimMode.trim s).
Proof. apply trimEnd_startsClean, trimStart_startsClean. Qed.

Lemma trim_idempotent (s : string) :
  TrimMode.trim (TrimMode.trim s) = TrimMode.trim s.
Proof.
  unfold TrimMode.trim at 1.
  rewrite (trimStart_clean _ (trim_startsClean s)).
  apply trimEnd_idempotent.
Qed.

Lemma trimEnd_of_trimmed (x : string) :
  TrimMode.trim x = x -> TrimMode.trimEnd x = x.
Proof.
  intro H. rewrite <- H at 1. unfold TrimMode.trim.
  rewrite trimEnd_idempotent. exact H.
Qed.

Lemma trim_hash (x : string) :
  TrimMode.trim x = x -> TrimMode.trim ("#" ++ x) = ("#" ++ x)%string.
Proof.
  intro H. unfold TrimMode.trim. simpl TrimMode.trimStart.
  rewrite trimEnd_cons_clean by reflexivity.
  now rewrite (trimEnd_of_trimmed x H).
Qed.

Lemma noChar_trimStart (c : ascii) (s : string) :
  noChar c s = true -> noChar c (TrimMode.trimStart s) = true.
Proof.
  induction s as [|a t IH]; [easy|]. intro H. simpl.
  destruct (TrimMode.isWhiteSpace a); [|exact H].
  simpl in H. apply andb_prop in H as [_ Ht]. now apply IH.
Qed.

Lemma noChar_trimEnd (c : ascii) (s : string) :
  noChar c s = true -> noChar c (TrimMode.trimEnd s) = true.
Proof.
  induction s as [|a t IH]; [easy|]. intro H. simpl in H.
  apply andb_prop in H as [Ha Ht]. rewrite trimEnd_cons.
  specialize (IH Ht). destruct (TrimMode.trimEnd t) as [|b u].
  - destruct (TrimMode.isWhiteSpace a); [reflexivity|].
    simpl. now rewrite Ha.
  - change (noChar c (String a (String b u)))
      with (negb (Ascii.eqb a c) && noChar c (String b u)).
    now rewrite Ha, IH.
Qed.

Lemma noChar_trim (c : ascii) (s : string) :
  noChar c s = true -> noChar c (TrimMode.trim s) = true.
Proof. intro H. now apply noChar_trimEnd, noChar_trimStart. Qed.

(** A line with the character splits at its first occurrence. *)
Lemma first_occurrence (c : ascii) (s : string) :
  noChar c s = false ->
  exists p r, s = (p ++ String c r)%string /\ noChar c p = true.
Proof.
  induction s as [|a t IH]; [discriminate|]. simpl.
  destruct (Ascii.eqb_spec a c) as [->|Hne]; simpl.
  - intros _. exists EmptyString, t. now split.
  - intro H. destruct (IH H) as (p & r & -> & Hp).
    exists (String a p), r. split; [reflexivity|]. simpl.
    destruct (Ascii.eqb_spec a c); [contradiction|exact Hp].
Qed.

Lemma trim_parse_no_comma (line : string) :
  noChar "," line = true ->
  TrimMode.parseColorInput line =
  {| color := if JS.testBareHex6 (TrimMode.trim line)
              then "#" ++ TrimMode.trim line else TrimMode.trim line;
     label := None |}.
Proof.
  intro H. unfold TrimMode.parseColorInput.
  now rewrite (split_noChar "," line H).
Qed.

Lemma trim_parse_at_comma (p r : string) :
  noChar "," p = true ->
  TrimMode.parseColorInput (p ++ String "," r) =
  {| color := if JS.testBareHex6 (TrimMode.trim p)
              then "#" ++ TrimMode.trim p else TrimMode.trim p;
     label := Some (TrimMode.trim r) |}.
Proof.
  intro H. unfold TrimMode.parseColorInput.
  rewrite split_app, (split_noChar "," p H). cbn [app].
  destruct (split_not_nil "," r) as (q & rest & E). rewrite E.
  now rewrite <- E, join_split.
Qed.

(** The colour the trimming parser stores is in normal form. *)
Lemma trim_color_normal (p : string) :
  noChar "," p = true ->
  let c := if JS.testBareHex6 (TrimMode.trim p)
           then ("#" ++ TrimMode.trim p)%string else TrimMode.trim p in
  noChar "," c = true /\ TrimMode.trim c = c /\ JS.testBareHex6 c = false.
Proof.
  intros H c. subst c. pose proof (noChar_trim "," p H) as Hn.
  pose proof (trim_idempotent p) as Ht.
  destruct (JS.testBareHex6 (TrimMode.trim p)) eqn:E.
  - split; [exact Hn|split].
    + now apply trim_hash.
    + now apply testBareHex6_hash.
  - now repeat split.
Qed.

End Trim.

(** X4. In the revision of src/src/App.tsx, [parseColorInput] splits at the
    first comma only: the text before it, trimmed and given its [#] when it
    is six bare hex digits, is the colour, and everything after it, further
    commas included, trimmed, is the label.  A line without comma is the
    colour, trimmed, and has no label; spaces never split. *)
Theorem trim_parse_splits_at_first_comma (line : string) :
  (noChar "," line = true ->
   TrimMode.parseColorInput line =
   {| color := if JS.testBareHex6 (TrimMode.trim line)
               then "#" ++ TrimMode.trim line else TrimMode.trim line;
      label := None |}) /\
  (forall p r : string,
     line = p ++ String "," r -> noChar "," p = true ->
     TrimMode.parseColorInput line =
     {| color := if JS.testBareHex6 (TrimMode.trim p)
                 then "#" ++ TrimMode.trim p else TrimMode.trim p;
        label := Some (TrimMode.trim r) |}).
Proof.
  split.
  - apply trim_parse_no_comma.
  - intros p r -> Hp. now apply trim_parse_at_comma.
Qed.

Lemma trim_parse_splits_at_first_comma_witness :
  TrimMode.parseColorInput " ff00ff , Pink, hot " =
  {| color := "#ff00ff"; label := Some "Pink, hot" |} /\
  TrimMode.parseColorInput "rgb(1 2 3)" =
  {| color := "rgb(1 2 3)"; label := None |}.
Proof.
  split.
  - apply (proj2 (trim_parse_splits_at_first_comma " ff00ff , Pink, hot ")
             " ff00ff " " Pink, hot "); reflexivity.
  - apply (proj1 (trim_parse_splits_at_first_comma "rgb(1 2 3)")).
    reflexivity.
Defined.

(** Parsing undoes formatting on an entry in normal form. *)
Lemma parse_format_normal (e : ColorEntry) :
  trimNormal e ->
  TrimMode.parseColorInput (TrimMode.formatColorValue e) = e.
Proof.
  destruct e as [c [l|]]; unfold trimNormal, TrimMode.formatColorValue;
    cbn [color label]; intros (Hn & Ht & Hx & Hl).
  - destruct Hl as [Hlt Hne]. destruct l as [|a l']; [contradiction|].
    cbn [JS.truthy].
    change (c ++ ", " ++ String a l')
      with (c ++ String "," (String " " (String a l'))).
    rewrite (trim_parse_at_comma c _ Hn), Ht, Hx.
    change (TrimMode.trim (String " " (String a l')))
      with (TrimMode.trim (String a l')).
    now rewrite Hlt.
  - now rewrite (trim_parse_no_comma c Hn), Ht, Hx.
Qed.

(** X5. In the revision of src/src/App.tsx parsing undoes formatting on
    every entry in normal form (a trimmed colour without comma that is not
    six bare hex digits, and no label or a trimmed label that is not empty):
    what the text area shows for such an entry parses back to that entry. *)
Theorem trim_parse_format (e : ColorEntry) :
  trimNormal e ->
  TrimMode.parseColorInput (TrimMode.formatColorValue e) = e.
Proof. exact (parse_format_normal e). Qed.

Lemma trim_parse_format_witness :
  TrimMode.parseColorInput
    (TrimMode.formatColorValue
       {| color := "#FF0000"; label := Some "Red Button" |}) =
  {| color := "#FF0000"; label := Some "Red Button" |}.
Proof.
  apply trim_parse_format. unfold trimNormal. cbn [color label].
  repeat split; discriminate.
Defined.

(** X6. In the revision of src/src/App.tsx the line a text area shows for a
    parsed line is stable: formatting the parsed line and parsing and
    formatting again gives the same text. *)
Theorem trim_format_parse_idempotent (line : string) :
  TrimMode.formatColorValue
    (TrimMode.parseColorInput
       (TrimMode.formatColorValue (TrimMode.parseColorInput line))) =
  TrimMode.formatColorValue (TrimMode.parseColorInput line).
Proof.
  assert (Hshape : exists c l,
    TrimMode.parseColorInput line = {| color := c; label := l |} /\
    noChar "," c = true /\ TrimMode.trim c = c /\
    JS.testBareHex6 c = false /\
    (l = None \/ exists r, l = Some (TrimMode.trim r))).
  { destruct (noChar "," line) eqn:Hn.
    - destruct (trim_color_normal line Hn) as (H1 & H2 & H3).
      eexists _, _. split; [exact (trim_parse_no_comma line Hn)|].
      repeat split; auto.
    - destruct (first_occurrence "," line Hn) as (p & r & -> & Hp).
      destruct (trim_color_normal p Hp) as (H1 & H2 & H3).
      eexists _, _. split; [exact (trim_parse_at_comma p r Hp)|].
      repeat split; eauto. }
  destruct Hshape as (c & l & -> & Hn & Ht & Hx & Hl).
  destruct Hl as [->|(r & ->)].
  - f_equal. apply (parse_format_normal {| color := c; label := None |}).
    unfold trimNormal. cbn [color label]. now repeat split.
  - destruct (TrimMode.trim r) as [|a t] eqn:Er.
    + unfold TrimMode.formatColorValue at 2 3. cbn [color label JS.truthy].
      now rewrite (trim_parse_no_comma c Hn), Ht, Hx.
    + f_equal.
      apply (parse_format_normal {| color := c; label := Some (String a t) |}).
      unfold trimNormal. cbn [color label]. repeat split; auto.
      * rewrite <- Er. apply trim_idempotent.
      * discriminate.
Qed.

(** X7. In the revision of src/src/App.tsx blank lines never reach the list:
    a line of white space only, in the middle of the text or after its last
    newline, gives the same entries as the text without it, and a text of
    white space only gives the empty list.  Pressing Enter at the end of a
    text area therefore changes nothing. *)
Theorem trim_parseLines_drops_blank_lines (before blank after : string) :
  noChar JS.newline blank = true -> TrimMode.trim blank = "" ->
  TrimEditor.parseLines
    (before ++ String JS.newline (blank ++ String JS.newline after)) =
  TrimEditor.parseLines (before ++ String JS.newline after) /\
  TrimEditor.parseLines (before ++ String JS.newline blank) =
  TrimEditor.parseLines before /\
  TrimEditor.parseLines blank = [].
Proof.
  intros Hn Hb. unfold TrimEditor.parseLines.
  rewrite !split_app, (split_noChar JS.newline blank Hn).
  rewrite !map_app, !filter_app. cbn [map filter List.app].
  rewrite Hb. cbn [JS.truthy map]. split; [reflexivity|split].
  - now rewrite app_nil_r.
  - reflexivity.
Qed.

Lemma trim_parseLines_drops_blank_lines_witness :
  TrimEditor.parseLines
    (String "a" (String JS.newline (String " " (String JS.newline
       (String "b" EmptyString))))) =
  TrimEditor.parseLines
    (String "a" (String JS.newline (String "b" EmptyString))) /\
  TrimEditor.parseLines
    (String "a" (String JS.newline EmptyString)) =
  TrimEditor.parseLines (String "a" EmptyString).
Proof.
  split.
  - apply (proj1 (trim_parseLines_drops_blank_lines
                    "a" " " "b" eq_refl eq_refl)).
  - apply (proj1 (proj2 (trim_parseLines_drops_blank_lines
                    "a" "" "" eq_refl eq_refl))).
Defined.

(** ** A whole drag gesture *)

Section Gesture.

Local Open Scope nat_scope.
Local Open Scope list_scope.

Lemma firstn_app_exact {A : Type} (l1 l2 : list A) :
  firstn (List.length l1) (l1 ++ l2) = l1.
Proof. induction l1 as [|x l IH]; simpl; [now destruct l2|now rewrite IH]. Qed.

Lemma skipn_app_exact {A : Type} (l1 l2 : list A) :
  skipn (List.length l1) (l1 ++ l2) = l2.
Proof. induction l1 as [|x l IH]; simpl; [reflexivity|exact IH]. Qed.

Lemma spliceRemove_spliceInsert (b : JSArray.array) (k : nat)
  (x : JSArray.slot) :
  k <= List.length b ->
  JSArray.spliceRemove (JSArray.spliceInsert b k x) k = b.
Proof.
  intro H. unfold JSArray.spliceRemove, JSArray.spliceInsert.
  pose proof (firstn_skipn k b) as Hb.
  assert (L : List.length (firstn k b) = k) by (rewrite length_firstn; lia).
  set (l1 := firstn k b) in *. set (l2 := skipn k b) in *.
  clearbody l1 l2. subst k.
  rewrite firstn_app_exact.
  replace (l1 ++ x :: l2) with ((l1 ++ [x]) ++ l2) by now rewrite <- app_assoc.
  replace (S (List.length l1)) with (List.length (l1 ++ [x]))
    by (rewrite length_app; simpl; lia).
  now rewrite skipn_app_exact.
Qed.

Lemma get_spliceInsert (b : JSArray.array) (k : nat) (x : JSArray.slot) :
  k <= List.length b -> JSArray.get (JSArray.spliceInsert b k x) k = x.
Proof.
  intro H. apply get_nth_error. rewrite nth_error_spliceInsert by exact H.
  now rewrite Nat.ltb_irrefl, Nat.eqb_refl.
Qed.

Lemma moved_same (a : JSArray.array) (i : nat) :
  i < List.length a -> moved a i i = a.
Proof.
  intro H. unfold moved, JSArray.spliceInsert, JSArray.spliceRemove.
  destruct (nth_error a i) as [x|] eqn:Hx;
    [|apply nth_error_None in Hx; lia].
  rewrite (get_nth_error a i x Hx).
  pose proof (firstn_skipn_middle i a Hx) as Ha.
  assert (L : List.length (firstn i a) = i) by (rewrite length_firstn; lia).
  set (l1 := firstn i a) in *. set (l3 := skipn (S i) a) in *.
  clearbody l1 l3. subst i.
  now rewrite firstn_app_exact, skipn_app_exact.
Qed.

Lemma handleDragOver_dragged type k j st :
  draggedOf type st = Some k ->
  draggedOf type (handleDragOver j type st) = Some j.
Proof.
  intro H. unfold handleDragOver. destruct type; simpl in H |- *;
    rewrite H; destruct (Nat.eqb_spec k j); subst; simpl; auto.
Qed.

Lemma last_cons_default {A : Type} (l : list A) (j d : A) :
  last (j :: l) d = last l j.
Proof.
  revert j d. induction l as [|x l IH]; intros j d; [reflexivity|].
  change (last (j :: x :: l) d) with (last (x :: l) d).
  now rewrite (IH x d), (IH x j).
Qed.

(** While a gesture lasts, the list is the original one with the dragged
    cell moved to the index the component holds. *)
Lemma dragAlong_invariant type (a0 : JSArray.array) (i : nat) :
  i < List.length a0 ->
  forall (path : list nat) (st : AppState) (k : nat),
    draggedOf type st = Some k -> k < List.length a0 ->
    axisOf (axisOfDrag type) st = moved a0 i k ->
    Forall (fun j => j < List.length a0) path ->
    draggedOf type (dragAlong type path st) = Some (last path k) /\
    axisOf (axisOfDrag type) (dragAlong type path st) =
      moved a0 i (last path k) /\
    axisOf (otherAxis (axisOfDrag type)) (dragAlong type path st) =
      axisOf (otherAxis (axisOfDrag type)) st.
Proof.
  intros Hi path. induction path as [|j path IH]; intros st k Hd Hk Ha Hp.
  - simpl. auto.
  - inversion Hp as [|? ? Hj Hp']; subst.
    change (dragAlong type (j :: path) st)
      with (dragAlong type path (handleDragOver j type st)).
    rewrite last_cons_default.
    assert (Ha' : axisOf (axisOfDrag type) (handleDragOver j type st) =
                  moved a0 i j).
    { rewrite (handleDragOver_axis type k j st Hd).
      destruct (Nat.eqb_spec k j) as [->|Hne]; [exact Ha|].
      rewrite Ha. unfold moved at 1 2.
      assert (Hle : k <= List.length (JSArray.spliceRemove a0 i))
        by (rewrite length_spliceRemove by exact Hi; lia).
      now rewrite spliceRemove_spliceInsert, get_spliceInsert. }
    destruct (IH (handleDragOver j type st) j
                (handleDragOver_dragged type k j st Hd) Hj Ha' Hp')
      as (H1 & H2 & H3).
    repeat split; [exact H1|exact H2|].
    rewrite H3. apply handleDragOver_other_axis.
Qed.

End Gesture.

(** X8. A whole drag gesture, from [handleDragStart] on an in-range header
    over any sequence of in-range headers to [handleDragEnd], leaves the
    list as one direct move of the dragged entry to the last header passed
    would: the entry is taken out of its original place and put in at that
    index, the order of all other entries is kept, whatever the path.  The
    other axis is untouched, no drag index is left behind, and a gesture
    that ends on the header it started from gives back the original list. *)
Theorem drag_gesture_is_one_move (type : DragType) (fromIndex : nat)
  (path : list nat) (st : AppState) :
  (fromIndex < List.length (axisOf (axisOfDrag type) st))%nat ->
  Forall (fun j => (j < List.length (axisOf (axisOfDrag type) st))%nat)
    path ->
  let final :=
    handleDragEnd type
      (dragAlong type path (handleDragStart fromIndex type st)) in
  axisOf (axisOfDrag type) final =
    moved (axisOf (axisOfDrag type) st) fromIndex (last path fromIndex) /\
  axisOf (otherAxis (axisOfDrag type)) final =
    axisOf (otherAxis (axisOfDrag type)) st /\
  draggedOf type final = None /\
  (last path fromIndex = fromIndex ->
   axisOf (axisOfDrag type) final = axisOf (axisOfDrag type) st).
Proof.
  intros Hi Hp final.
  set (a0 := axisOf (axisOfDrag type) st) in *.
  set (st1 := handleDragStart fromIndex type st).
  assert (Hd : draggedOf type st1 = Some fromIndex) by now destruct type.
  assert (Ha : axisOf (axisOfDrag type) st1 = moved a0 fromIndex fromIndex).
  { rewrite (moved_same a0 fromIndex Hi). now destruct type. }
  assert (Ho : axisOf (otherAxis (axisOfDrag type)) st1 =
               axisOf (otherAxis (axisOfDrag type)) st) by now destruct type.
  destruct (dragAlong_invariant type a0 fromIndex Hi path st1 fromIndex
              Hd Hi Ha Hp) as (_ & H2 & H3).
  assert (E1 : axisOf (axisOfDrag type) final =
               moved a0 fromIndex (last path fromIndex)).
  { rewrite <- H2. unfold final. now destruct type. }
  repeat split.
  - exact E1.
  - rewrite <- Ho, <- H3. unfold final. now destruct type.
  - unfold final. now destruct type.
  - intro E. rewrite E1, E. now apply moved_same.
Qed.

Lemma drag_gesture_is_one_move_witness :
  foregroundColors
    (handleDragEnd column
       (dragAlong column [1; 2; 0; 2]%nat
          (handleDragStart 0 column initialState))) =
  map Some [ {| color := "#000000"; label := Some "Black" |};
             {| color := "#FF0000"; label := Some "Red" |};
             {| color := "#FFFFFF"; label := Some "White" |} ] /\
  foregroundColors
    (handleDragEnd column
       (dragAlong column [2; 1; 0]%nat
          (handleDragStart 0 column initialState))) =
  map Some defaultForeground.
Proof.
  assert (H0 : (0 < List.length
                  (axisOf (axisOfDrag column) initialState))%nat)
    by (simpl; lia).
  split.
  - assert (Hp : Forall (fun j => (j < List.length
                   (axisOf (axisOfDrag column) initialState))%nat)
                   [1; 2; 0; 2]%nat)
      by (repeat constructor; simpl; lia).
    exact (proj1 (drag_gesture_is_one_move column 0 _ initialState H0 Hp)).
  - assert (Hp : Forall (fun j => (j < List.length
                   (axisOf (axisOfDrag column) initialState))%nat)
                   [2; 1; 0]%nat)
      by (repeat constructor; simpl; lia).
    exact (proj2 (proj2 (proj2
             (drag_gesture_is_one_move column 0 _ initialState H0 Hp)))
             eq_refl).
Defined.

(** ** Successive colour changes *)

Section LastColour.

Local Open Scope nat_scope.
Local Open Scope list_scope.

Lemma get_set (a : JSArray.array) (i : nat) (v : ColorEntry) :
  JSArray.get (JSArray.set a i v) i = Some v.
Proof.
  apply get_nth_error. destruct (Nat.lt_ge_cases i (List.length a)) as [H|H].
  - now apply nth_error_set_same.
  - rewrite (set_past_end a i v H), app_assoc. unfold JSArray.slot in *.
    rewrite nth_error_app2 by (rewrite length_app, repeat_length; lia).
    rewrite length_app, repeat_length.
    match goal with
    | |- nth_error _ ?n = _ => replace n with 0 by lia
    end. reflexivity.
Qed.

Lemma set_set (a : JSArray.array) (i : nat) (v1 v2 : ColorEntry) :
  JSArray.set (JSArray.set a i v1) i v2 = JSArray.set a i v2.
Proof.
  destruct (Nat.lt_ge_cases i (List.length a)) as [H|H].
  - rewrite (set_in_range (JSArray.set a i v1) i v2)
      by (rewrite length_set_in_range; exact H).
    rewrite !(set_in_range a i _ H).
    assert (L : List.length (firstn i a) = i) by (rewrite length_firstn; lia).
    set (l1 := firstn i a) in *. set (l2 := skipn (S i) a). clearbody l1 l2.
    subst i. rewrite firstn_app_exact. f_equal. f_equal.
    replace (l1 ++ Some v1 :: l2) with ((l1 ++ [Some v1]) ++ l2)
      by now rewrite <- app_assoc.
    replace (S (List.length l1)) with (List.length (l1 ++ [Some v1]))
      by (rewrite length_app; simpl; lia).
    apply skipn_app_exact.
  - rewrite !(set_past_end a i _ H), !app_assoc. unfold JSArray.slot in *.
    match goal with
    | |- context [?x ++ [Some v1]] => set (l1 := x)
    end.
    assert (L : List.length l1 = i)
      by (unfold l1; rewrite length_app, repeat_length; lia).
    clearbody l1. subst i.
    rewrite set_in_range by (rewrite length_app; simpl; lia).
    rewrite firstn_app_exact.
    replace (S (List.length l1)) with (List.length (l1 ++ [Some v1]))
      by (rewrite length_app; simpl; lia).
    rewrite <- (app_nil_r (l1 ++ [Some v1])) at 2.
    now rewrite skipn_app_exact.
Qed.

Lemma withColor_twice (old : JSArray.slot) (c1 c2 : string) :
  withColor (Some (withColor old c1)) c2 = withColor old c2.
Proof. now destruct old. Qed.

End LastColour.

(** X9. Of two colour changes in a row only the last one counts: reporting
    [c1] and then [c2] from the picker leaves the same state, lists and
    saved copy alike, as reporting [c2] alone.  It holds for every state,
    whether the picker is closed, open in range or open past the end. *)
Theorem handleColorChange_last_wins (c1 c2 : string) (st : AppState) :
  handleColorChange c2 (handleColorChange c1 st) = handleColorChange c2 st.
Proof.
  unfold handleColorChange at 2.
  destruct (activeColorPicker st) as [[[|] index]|] eqn:E.
  - unfold handleColorChange. cbn [activeColorPicker foregroundColors
      backgroundColors draggedIndex draggedRowIndex saved]. rewrite E.
    now rewrite get_set, withColor_twice, set_set.
  - unfold handleColorChange. cbn [activeColorPicker foregroundColors
      backgroundColors draggedIndex draggedRowIndex saved]. rewrite E.
    now rewrite get_set, withColor_twice, set_set.
  - reflexivity.
Qed.

(** ** What the handlers save *)

(** X10. Every handler that writes to storage writes the two lists exactly
    as it sets them: after a colour change with the picker open, after
    clear and after random (both revisions of it) the saved object holds
    the new foreground and background lists. *)
Theorem handlers_save_what_they_set :
  (forall newColor st which index,
     activeColorPicker st = Some (which, index) ->
     saved (handleColorChange newColor st) =
     Some {| fg := foregroundColors (handleColorChange newColor st);
             bg := backgroundColors (handleColorChange newColor st) |}) /\
  (forall st,
     saved (handleClear st) =
     Some {| fg := foregroundColors (handleClear st);
             bg := backgroundColors (handleClear st) |}) /\
  (forall randomHex st,
     saved (handleRandom randomHex st) =
     Some {| fg := foregroundColors (handleRandom randomHex st);
             bg := backgroundColors (handleRandom randomHex st) |}) /\
  (forall drawnFg drawnBg randomHex st,
     saved (ExactEditor.handleRandom drawnFg drawnBg randomHex st) =
     Some {| fg := foregroundColors
                     (ExactEditor.handleRandom drawnFg drawnBg randomHex st);
             bg := backgroundColors
                     (ExactEditor.handleRandom drawnFg drawnBg randomHex st)
          |}).
Proof.
  repeat split.
  intros newColor st which index H. unfold handleColorChange. rewrite H.
  now destruct which.
Qed.

Lemma handlers_save_what_they_set_witness :
  saved (handleColorChange "#00FF00" (pickerOpenOn background 1)) =
  Some {| fg := map Some defaultForeground;
          bg := map Some
                  [ {| color := "#000000"; label := Some "Black" |};
                    {| color := "#00FF00"; label := Some "White" |};
                    {| color := "#0000FF"; label := Some "Blue" |} ] |}.
Proof.
  exact (proj1 handlers_save_what_they_set "#00FF00"
           (pickerOpenOn background 1) background 1%nat eq_refl).
Defined.

(** ** What start-up takes from storage *)

(** X11. When the stored text is not empty and parses to an object, an
    initialiser returns the stored field as it is, without checking it, and
    returns [undefined] when the object has no such field: a missing field
    does not fall back to the defaults.  When the text parses to [null], or
    is empty, the defaults are used. *)
Theorem loadAxis_takes_stored_field (JSON_parse : string -> option json)
  (key : string) (defaults : list ColorEntry) (text : string) :
  (forall fields,
     JS.truthy text = true -> JSON_parse text = Some (JObject fields) ->
     loadAxis JSON_parse key defaults (Some text) = property key fields) /\
  (forall fields,
     JS.truthy text = true -> JSON_parse text = Some (JObject fields) ->
     property key fields = None ->
     loadAxis JSON_parse key defaults (Some text) = None) /\
  (JSON_parse text = Some JNull ->
   loadAxis JSON_parse key defaults (Some text) =
   Some (jsonOfEntries defaults)) /\
  loadAxis JSON_parse key defaults (Some "") = Some (jsonOfEntries defaults).
Proof.
  unfold loadAxis. repeat split.
  - intros fields Ht Hp. now rewrite Ht, Hp.
  - intros fields Ht Hp Hk. now rewrite Ht, Hp.
  - intros Hp. rewrite Hp. now destruct (JS.truthy text).
Qed.

Lemma loadAxis_takes_stored_field_witness :
  initBackgroundColors
    (fun _ => Some (JObject [("fg", JArray [])])) (Some "{}") = None /\
  initForegroundColors
    (fun _ => Some (JObject [("fg", JArray [])])) (Some "{}") =
  Some (JArray []) /\
  initForegroundColors (fun _ => Some JNull) (Some "null") =
  Some (jsonOfEntries defaultForeground).
Proof.
  split; [|split].
  - exact (proj1 (proj2 (loadAxis_takes_stored_field
             (fun _ => Some (JObject [("fg", JArray [])]))
             "bg" defaultBackground "{}"))
             [("fg", JArray [])] eq_refl eq_refl eq_refl).
  - exact (proj1 (loadAxis_takes_stored_field
             (fun _ => Some (JObject [("fg", JArray [])]))
             "fg" defaultForeground "{}")
             [("fg", JArray [])] eq_refl eq_refl).
  - exact (proj1 (proj2 (proj2 (loadAxis_takes_stored_field
             (fun _ => Some JNull) "fg" defaultForeground "null")))
             eq_refl).
Defined.

(** ** Random colours *)

Section RandomCount.

Lemma randomCount_range (drawn : Q) :
  (0 <= drawn)%Q -> (drawn < 1)%Q ->
  (1 <= ExactEditor.randomCount drawn <= 4)%nat.
Proof.
  intros H0 H1. unfold ExactEditor.randomCount.
  assert (Hlo : 0 <= Qfloor (drawn * 4)).
  { change 0 with (Qfloor 0). apply Qfloor_resp_le.
    apply Qmult_le_0_compat; [exact H0|discriminate]. }
  assert (Hhi : Qfloor (drawn * 4) < 4).
  { rewrite Zlt_Qlt. apply Qle_lt_trans with (drawn * 4)%Q.
    - apply Qfloor_le.
    - apply Qlt_le_trans with (1 * 4)%Q; [|discriminate].
      apply Qmult_lt_compat_r; [reflexivity|exact H1]. }
  lia.
Qed.

End RandomCount.

(** X12. In the revision of src/unnamed/part_001, for any two numbers drawn
    from [0, 1), [handleRandom] gives each axis between one and four
    entries; the entries take the random colours in the order they were
    drawn, foreground first, and are labelled [ Column 1], [ Column 2], ...
    and [ Row 1], [ Row 2], ... by position. *)
Theorem handleRandom_counts_and_labels (drawnFg drawnBg : Q)
  (randomHex : nat -> string) (st : AppState) :
  (0 <= drawnFg)%Q -> (drawnFg < 1)%Q ->
  (0 <= drawnBg)%Q -> (drawnBg < 1)%Q ->
  let st' := ExactEditor.handleRandom drawnFg drawnBg randomHex st in
  let fgCount := List.length (foregroundColors st') in
  let bgCount := List.length (backgroundColors st') in
  (1 <= fgCount <= 4)%nat /\ (1 <= bgCount <= 4)%nat /\
  (forall k, (k < fgCount)%nat ->
     nth_error (foregroundColors st') k =
     Some (Some {| color := randomHex k;
                   label := Some (" Column " ++
                                  ExactEditor.decimal (k + 1)) |})) /\
  (forall k, (k < bgCount)%nat ->
     nth_error (backgroundColors st') k =
     Some (Some {| color := randomHex (fgCount + k)%nat;
                   label := Some (" Row " ++
                                  ExactEditor.decimal (k + 1)) |})).
Proof.
  intros Hf0 Hf1 Hb0 Hb1 st' fgCount bgCount.
  assert (Ef : fgCount = ExactEditor.randomCount drawnFg)
    by (unfold fgCount, st', ExactEditor.handleRandom;
        cbn [foregroundColors]; now rewrite length_map, length_seq).
  assert (Eb : bgCount = ExactEditor.randomCount drawnBg)
    by (unfold bgCount, st', ExactEditor.handleRandom;
        cbn [backgroundColors]; now rewrite length_map, length_seq).
  split; [rewrite Ef; now apply randomCount_range|].
  split; [rewrite Eb; now apply randomCount_range|].
  split.
  - intros k Hk. unfold st', ExactEditor.handleRandom.
    cbn [foregroundColors]. rewrite nth_error_map, nth_error_seq.
    rewrite Ef in Hk. apply Nat.ltb_lt in Hk. now rewrite Hk.
  - intros k Hk. unfold st', ExactEditor.handleRandom.
    cbn [backgroundColors]. rewrite nth_error_map, nth_error_seq.
    rewrite Eb in Hk. apply Nat.ltb_lt in Hk. rewrite Hk.
    cbn [option_map Nat.add]. now rewrite Ef.
Qed.

Lemma handleRandom_counts_and_labels_witness :
  foregroundColors
    (ExactEditor.handleRandom 0.3 0.99 (fun _ => "#123456") initialState) =
  [ Some {| color := "#123456"; label := Some " Column 1" |};
    Some {| color := "#123456"; label := Some " Column 2" |} ] /\
  (1 <= List.length
          (backgroundColors
             (ExactEditor.handleRandom 0.3 0.99 (fun _ => "#123456")
                initialState)) <= 4)%nat.
Proof.
  split; [reflexivity|].
  assert (H0 : (0 <= 0.3)%Q) by discriminate.
  assert (H1 : (0.3 < 1)%Q) by reflexivity.
  assert (H2 : (0 <= 0.99)%Q) by discriminate.
  assert (H3 : (0.99 < 1)%Q) by reflexivity.
  exact (proj1 (proj2 (handleRandom_counts_and_labels 0.3 0.99
           (fun _ => "#123456") initialState H0 H1 H2 H3))).
Defined.

(** ** Class and caption of a cell *)

(** X13. In the revision that has both (src/unnamed/part_000), the class of
    a cell and its caption always name the same tier: [passing-aaa] with
    AAA, [passing-aa] with AA, [failing] with the failing mark. *)
Theorem class_and_caption_agree (ratio : number) :
  (getContrastClass ratio = "passing-aaa" <-> getContrastLabel ratio = AAA) /\
  (getContrastClass ratio = "passing-aa" <-> getContrastLabel ratio = AA) /\
  (getContrastClass ratio = "failing" <-> getContrastLabel ratio = FAIL).
Proof.
  unfold getContrastClass, getContrastLabel.
  destruct (Number.geb ratio (Num 7)), (Number.geb ratio (Num 4.5));
    repeat split; intro H; try reflexivity; discriminate.
Qed.

(** ** RGB and hex *)

Section RgbHex.

Lemma hexValue_hexDigit (d : Z) :
  0 <= d < 16 -> Chroma.hexValue (Chroma.hexDigit d) = Some d.
Proof.
  intro H.
  assert (C : d = 0 \/ d = 1 \/ d = 2 \/ d = 3 \/ d = 4 \/ d = 5 \/ d = 6 \/
              d = 7 \/ d = 8 \/ d = 9 \/ d = 10 \/ d = 11 \/ d = 12 \/
              d = 13 \/ d = 14 \/ d = 15) by lia.
  repeat (destruct C as [->|C]; [reflexivity|]). now subst d.
Qed.

Lemma round_inject_Z (z : Z) : Number.round (inject_Z z) = z.
Proof.
  unfold Number.round, Qfloor, Qplus, inject_Z. cbn [Qnum Qden].
  symmetry. apply (Z.div_unique_pos _ _ _ 1); lia.
Qed.

Lemma clip_channel (z : Z) :
  0 <= z <= 255 -> Chroma.clip (inject_Z z) = inject_Z z.
Proof.
  intros [Hlo Hhi]. unfold Chroma.clip, Chroma.Qmax, Chroma.Qmin.
  assert (E1 : Qle_bool 0 (inject_Z z) = true)
    by (apply Qle_bool_iff; change 0%Q with (inject_Z 0);
        now rewrite <- Zle_Qle).
  assert (E2 : Qle_bool (inject_Z z) 255 = true)
    by (apply Qle_bool_iff; change 255%Q with (inject_Z 255);
        now rewrite <- Zle_Qle).
  now rewrite E1, E2.
Qed.

Lemma hexValues_hexByte (n : Z) (rest : string) :
  0 <= n <= 255 ->
  Chroma.hexValues (Chroma.hexByte n ++ rest) =
  match Chroma.hexValues rest with
  | Some vs => Some (n / 16 :: n mod 16 :: vs)
  | None => None
  end.
Proof.
  intro H. unfold Chroma.hexByte. cbn [append Chroma.hexValues].
  rewrite !hexValue_hexDigit.
  - now destruct (Chroma.hexValues rest).
  - apply Z.mod_pos_bound. lia.
  - split; [apply Z.div_pos; lia|apply Z.div_lt_upper_bound; lia].
Qed.

End RgbHex.

(** X14. Going from integer RGB channels in 0..255 to hex text with
    [rgbToHex] and back with [hexToRgb] gives the same channels, with the
    hex reader and writer of the colour library as modelled here (two
    lower-case hex digits per channel). *)
Theorem rgb_hex_roundtrip (rgb : Chroma.RGB) :
  validRGB rgb -> Rgb.hexToRgb (Rgb.rgbToHex rgb) = Some rgb.
Proof.
  destruct rgb as [r g b]. unfold validRGB. cbn [Chroma.r Chroma.g Chroma.b].
  intros (Hr & Hg & Hb).
  unfold Rgb.hexToRgb, Rgb.rgbToHex, Chroma.rgb2hex, Chroma.hex2rgb.
  cbn [Chroma.r Chroma.g Chroma.b].
  rewrite !clip_channel, !round_inject_Z by assumption.
  change ("#" ++ Chroma.hexByte r ++ Chroma.hexByte g ++ Chroma.hexByte b)
    with (String "#"
            (Chroma.hexByte r ++ Chroma.hexByte g ++ Chroma.hexByte b ++ "")).
  cbv iota.
  rewrite !hexValues_hexByte by assumption.
  cbn [Chroma.hexValues Chroma.r Chroma.g Chroma.b].
  rewrite !round_inject_Z.
  rewrite <- !Z.div_mod by lia. reflexivity.
Qed.

Lemma rgb_hex_roundtrip_witness :
  Rgb.hexToRgb
    (Rgb.rgbToHex {| Chroma.r := 28; Chroma.g := 105; Chroma.b := 181 |}) =
  Some {| Chroma.r := 28; Chroma.g := 105; Chroma.b := 181 |}.
Proof.
  apply rgb_hex_roundtrip. unfold validRGB. simpl. lia.
Defined.

(** ** The text area of the trimming revision *)

Section TrimTextArea.

Local Open Scope list_scope.

Lemma noChar_app (c : ascii) (s t : string) :
  noChar c (s ++ t)%string = noChar c s && noChar c t.
Proof.
  induction s as [|a s IH]; simpl; [reflexivity|].
  now rewrite IH, andb_assoc.
Qed.

Lemma split_join (c : ascii) (ls : list string) :
  ls <> [] -> Forall (fun l => noChar c l = true) ls ->
  JS.split c (JS.join (String c EmptyString) ls) = ls.
Proof.
  induction ls as [|x ls IH]; [contradiction|]. intros _ H.
  inversion H as [|? ? Hx Hls]; subst.
  destruct ls as [|y r].
  - simpl. now apply split_noChar.
  - change (JS.join (String c EmptyString) (x :: y :: r))
      with (x ++ String c (JS.join (String c EmptyString) (y :: r)))%string.
    rewrite split_app, (split_noChar c x Hx), IH by (auto; discriminate).
    reflexivity.
Qed.

Lemma trimEnd_app (s t : string) (b : ascii) (u : string) :
  TrimMode.trimEnd t = String b u ->
  TrimMode.trimEnd (s ++ t) = (s ++ String b u)%string.
Proof.
  intro H. induction s as [|a s IH]; [exact H|].
  cbn [append]. rewrite trimEnd_cons, IH.
  destruct s; reflexivity.
Qed.

Lemma startsClean_app (s t : string) :
  s <> EmptyString -> startsClean s -> startsClean (s ++ t).
Proof. destruct s; [contradiction|]. intros _ H. exact H. Qed.

Lemma trim_format (e : ColorEntry) :
  trimNormal e ->
  TrimMode.trim (TrimMode.formatColorValue e) = TrimMode.formatColorValue e.
Proof.
  destruct e as [c [l|]]; unfold trimNormal, TrimMode.formatColorValue;
    cbn [color label]; intros (_ & Ht & _ & Hl); [|exact Ht].
  destruct Hl as [Hlt Hne]. destruct l as [|a l']; [contradiction|].
  cbn [JS.truthy]. unfold TrimMode.trim.
  assert (Hc : startsClean (c ++ ", " ++ String a l')).
  { destruct c as [|x c']; [reflexivity|].
    apply startsClean_app; [discriminate|].
    rewrite <- Ht. apply trim_startsClean. }
  rewrite (trimStart_clean _ Hc).
  change (c ++ ", " ++ String a l')%string
    with (c ++ String "," (String " " (String a l')))%string.
  apply trimEnd_app.
  apply (trimEnd_app ", " (String a l') a l').
  now apply trimEnd_of_trimmed.
Qed.

Lemma format_shown_truthy (e : ColorEntry) :
  trimShown e -> JS.truthy (TrimMode.formatColorValue e) = true.
Proof.
  destruct e as [c [l|]]; unfold trimShown, trimNormal,
    TrimMode.formatColorValue; cbn [color label].
  - intros ((_ & _ & _ & _ & Hne) & _). destruct l; [contradiction|].
    cbn [JS.truthy]. now destruct c.
  - intros (_ & _ & Hc). now destruct c.
Qed.

Lemma noChar_format_shown (e : ColorEntry) :
  trimShown e ->
  noChar JS.newline (TrimMode.formatColorValue e) = true.
Proof.
  destruct e as [c [l|]]; unfold trimShown, TrimMode.formatColorValue;
    cbn [color label]; intros (_ & Hc & Hl); [|exact Hc].
  destruct (JS.truthy l); [|exact Hc].
  now rewrite !noChar_app, Hc, Hl.
Qed.

Lemma parse_shown_lines (entries : list ColorEntry) :
  Forall trimShown entries ->
  map TrimMode.parseColorInput
    (filter JS.truthy
       (map TrimMode.trim (map TrimMode.formatColorValue entries))) =
  entries.
Proof.
  induction 1 as [|e es He _ IH]; [reflexivity|].
  cbn [map]. rewrite (trim_format e (proj1 He)). cbn [filter].
  rewrite (format_shown_truthy e He). cbn [map].
  now rewrite (parse_format_normal e (proj1 He)), IH.
Qed.

End TrimTextArea.

(** X15. In the revision of src/src/App.tsx the text a text area shows for
    a list parses back to that list, whenever every entry is in normal form
    and shows as one non-empty line, as the entries of the default lists
    do: for such lists text and list stay in step. *)
Theorem trim_textarea_parses_back (entries : list ColorEntry) :
  Forall trimShown entries ->
  TrimEditor.parseLines (TrimEditor.textareaValue entries) = entries.
Proof.
  intro H. unfold TrimEditor.parseLines, TrimEditor.textareaValue.
  destruct entries as [|e es]; [reflexivity|].
  rewrite split_join.
  - now apply parse_shown_lines.
  - discriminate.
  - apply Forall_map. revert H. apply Forall_impl. intro x.
    apply noChar_format_shown.
Qed.

Lemma trim_textarea_parses_back_witness :
  TrimEditor.parseLines (TrimEditor.textareaValue defaultForeground) =
  defaultForeground.
Proof.
  apply trim_textarea_parses_back.
  repeat constructor; discriminate.
Defined.
